(** * Practice-exam quiz (quiz_app.py): a shallow embedding and its properties

    The Streamlit script is modelled as a set of handlers over an explicit
    session record, an explicit model of the spreadsheet service and the
    list of messages shown to the user.

    Modelling conventions.
    - Python [int] is [Z]; row labels of the DataFrame are [nat].
    - Python [str] is [string], read as ASCII text: a character outside
      ASCII is neither whitespace, nor a digit, nor a cased letter.
    - A dict keyed by row label is a [gmap nat Z].
    - The table returned by [conn.read] carries a RangeIndex, so the loaded
      DataFrame is a [list question] whose labels are the positions; a
      sub-frame keeps the labels and is a list of (label, row) pairs.
    - A cell of a numeric column of the worksheet is the integer it reads
      as ([0] for a cell that is empty or not a number); [astype(int)]
      brings it into 64 bits.
    - [(correct / total) * 100] is computed over the rationals, and the
      division raises [ZeroDivisionError] at [total = 0] as [/] does. *)

From Stdlib Require Import ZArith QArith Ascii String.
From stdpp Require Import base option list strings pretty gmap sorting.

Local Open Scope string_scope.
Local Open Scope Z_scope.
Local Set Warnings "-clear-no-such-hyp".

(** ** Python string primitives *)

Module Py.

(** Characters removed by [str.strip()] with no argument. *)
Definition is_space (c : ascii) : bool :=
  let n := N_of_ascii c in
  ((9 <=? n) && (n <=? 13) || (28 <=? n) && (n <=? 32))%N.

Definition is_upper (c : ascii) : bool :=
  let n := N_of_ascii c in ((65 <=? n) && (n <=? 90))%N.

Definition is_lower (c : ascii) : bool :=
  let n := N_of_ascii c in ((97 <=? n) && (n <=? 122))%N.

Definition lower_char (c : ascii) : ascii :=
  if is_upper c then ascii_of_N (N_of_ascii c + 32) else c.

Definition upper_char (c : ascii) : ascii :=
  if is_lower c then ascii_of_N (N_of_ascii c - 32) else c.

(** [s.lower()] and [s.upper()] *)
Fixpoint lower (s : string) : string :=
  match s with
  | EmptyString => EmptyString
  | String c r => String (lower_char c) (lower r)
  end.

Fixpoint upper (s : string) : string :=
  match s with
  | EmptyString => EmptyString
  | String c r => String (upper_char c) (upper r)
  end.

(** [c in s] for a one-character [c] *)
Fixpoint contains (c : ascii) (s : string) : bool :=
  match s with
  | EmptyString => false
  | String a r => if decide (a = c) then true else contains c r
  end.

(** [s.split(c)] for a one-character separator: never the empty list. *)
Fixpoint split (c : ascii) (s : string) : list string :=
  match s with
  | EmptyString => [EmptyString]
  | String a r =>
      if decide (a = c) then EmptyString :: split c r
      else match split c r with
           | h :: t => String a h :: t
           | [] => [String a EmptyString]
           end
  end.

Fixpoint lstrip (s : string) : string :=
  match s with
  | EmptyString => EmptyString
  | String c r => if is_space c then lstrip r else s
  end.

Fixpoint rstrip (s : string) : string :=
  match s with
  | EmptyString => EmptyString
  | String c r =>
      match rstrip r with
      | EmptyString => if is_space c then EmptyString else String c EmptyString
      | r' => String c r'
      end
  end.

(** [s.strip()] *)
Definition strip (s : string) : string := rstrip (lstrip s).

Definition digit_val (c : ascii) : option Z :=
  let n := Z.of_N (N_of_ascii c) in
  if (48 <=? n) && (n <=? 57) then Some (n - 48) else None.

(** The digit part of a decimal literal: at least one digit, and single
    underscores allowed between two digits. [after_digit] tells whether
    the previous character was a digit. *)
Fixpoint int_digits (acc : Z) (after_digit : bool) (s : string) : option Z :=
  match s with
  | EmptyString => if after_digit then Some acc else None
  | String c r =>
      match digit_val c with
      | Some d => int_digits (10 * acc + d) true r
      | None =>
          if decide (c = "_"%char) then
            if after_digit then int_digits acc false r else None
          else None
      end
  end.

(** [int(s)]: [None] stands for [ValueError]. *)
Definition int (s : string) : option Z :=
  match strip s with
  | String "+" r => int_digits 0 false r
  | String "-" r => Z.opp <$> int_digits 0 false r
  | t => int_digits 0 false t
  end.

(** [pandas.Series.unique()]: first occurrences, in order of appearance. *)
Fixpoint unique_from (seen l : list Z) : list Z :=
  match l with
  | [] => []
  | x :: r =>
      if decide (x ∈ seen) then unique_from seen r
      else x :: unique_from (x :: seen) r
  end.

Definition unique (l : list Z) : list Z := unique_from [] l.

(** [sorted(l)] on integers *)
Definition sorted (l : list Z) : list Z := merge_sort Z.le l.

(** [DataFrame.sample(n)] (without replacement): [n] rows are taken out of
    the pool one at a time, each at a position given by the next draw of
    the random generator. *)
Fixpoint sample {A} (draws : list nat) (pool : list A) (n : nat) : list A :=
  match n with
  | O => []
  | S n' =>
      let k := (hd 0 draws mod length pool)%nat in
      match pool !! k with
      | Some x => x :: sample (tl draws) (delete k pool) n'
      | None => []
      end
  end.

End Py.

(** ** The question table *)

Record question := {
  Chapter : Z;
  Question_No : Z;
  Question : string;
  Option_A : string;
  Option_B : string;
  Option_C : string;
  Option_D : string;
  Correct_Answer : string;
  Reason : string;
  Attempted : Z;
  Incorrect_attempt : Z
}.

Definition set_Chapter (v : Z) (q : question) : question :=
  {| Chapter := v; Question_No := Question_No q; Question := Question q;
     Option_A := Option_A q; Option_B := Option_B q; Option_C := Option_C q;
     Option_D := Option_D q; Correct_Answer := Correct_Answer q;
     Reason := Reason q; Attempted := Attempted q;
     Incorrect_attempt := Incorrect_attempt q |}.

Definition set_Question_No (v : Z) (q : question) : question :=
  {| Chapter := Chapter q; Question_No := v; Question := Question q;
     Option_A := Option_A q; Option_B := Option_B q; Option_C := Option_C q;
     Option_D := Option_D q; Correct_Answer := Correct_Answer q;
     Reason := Reason q; Attempted := Attempted q;
     Incorrect_attempt := Incorrect_attempt q |}.

Definition set_Question (v : string) (q : question) : question :=
  {| Chapter := Chapter q; Question_No := Question_No q; Question := v;
     Option_A := Option_A q; Option_B := Option_B q; Option_C := Option_C q;
     Option_D := Option_D q; Correct_Answer := Correct_Answer q;
     Reason := Reason q; Attempted := Attempted q;
     Incorrect_attempt := Incorrect_attempt q |}.

Definition set_Option_A (v : string) (q : question) : question :=
  {| Chapter := Chapter q; Question_No := Question_No q; Question := Question q;
     Option_A := v; Option_B := Option_B q; Option_C := Option_C q;
     Option_D := Option_D q; Correct_Answer := Correct_Answer q;
     Reason := Reason q; Attempted := Attempted q;
     Incorrect_attempt := Incorrect_attempt q |}.

Definition set_Option_B (v : string) (q : question) : question :=
  {| Chapter := Chapter q; Question_No := Question_No q; Question := Question q;
     Option_A := Option_A q; Option_B := v; Option_C := Option_C q;
     Option_D := Option_D q; Correct_Answer := Correct_Answer q;
     Reason := Reason q; Attempted := Attempted q;
     Incorrect_attempt := Incorrect_attempt q |}.

Definition set_Option_C (v : string) (q : question) : question :=
  {| Chapter := Chapter q; Question_No := Question_No q; Question := Question q;
     Option_A := Option_A q; Option_B := Option_B q; Option_C := v;
     Option_D := Option_D q; Correct_Answer := Correct_Answer q;
     Reason := Reason q; Attempted := Attempted q;
     Incorrect_attempt := Incorrect_attempt q |}.

Definition set_Option_D (v : string) (q : question) : question :=
  {| Chapter := Chapter q; Question_No := Question_No q; Question := Question q;
     Option_A := Option_A q; Option_B := Option_B q; Option_C := Option_C q;
     Option_D := v; Correct_Answer := Correct_Answer q;
     Reason := Reason q; Attempted := Attempted q;
     Incorrect_attempt := Incorrect_attempt q |}.

Definition set_Correct_Answer (v : string) (q : question) : question :=
  {| Chapter := Chapter q; Question_No := Question_No q; Question := Question q;
     Option_A := Option_A q; Option_B := Option_B q; Option_C := Option_C q;
     Option_D := Option_D q; Correct_Answer := v;
     Reason := Reason q; Attempted := Attempted q;
     Incorrect_attempt := Incorrect_attempt q |}.

Definition set_Reason (v : string) (q : question) : question :=
  {| Chapter := Chapter q; Question_No := Question_No q; Question := Question q;
     Option_A := Option_A q; Option_B := Option_B q; Option_C := Option_C q;
     Option_D := Option_D q; Correct_Answer := Correct_Answer q;
     Reason := v; Attempted := Attempted q;
     Incorrect_attempt := Incorrect_attempt q |}.

Definition set_Attempted (v : Z) (q : question) : question :=
  {| Chapter := Chapter q; Question_No := Question_No q; Question := Question q;
     Option_A := Option_A q; Option_B := Option_B q; Option_C := Option_C q;
     Option_D := Option_D q; Correct_Answer := Correct_Answer q;
     Reason := Reason q; Attempted := v;
     Incorrect_attempt := Incorrect_attempt q |}.

Definition set_Incorrect_attempt (v : Z) (q : question) : question :=
  {| Chapter := Chapter q; Question_No := Question_No q; Question := Question q;
     Option_A := Option_A q; Option_B := Option_B q; Option_C := Option_C q;
     Option_D := Option_D q; Correct_Answer := Correct_Answer q;
     Reason := Reason q; Attempted := Attempted q;
     Incorrect_attempt := v |}.

(** The DataFrame as loaded: row [i] has label [i]. *)
Abbreviation table := (list question).

(** The DataFrame as [conn.read] returns it: the names of its columns (row 1
    of the worksheet) and its rows. Of the columns of [question], the
    loader looks for ['Attempted'], ['Incorrect attempt'] and
    ['Question No.']; the others are taken to be there. *)
Abbreviation sheet_frame := (list string * table)%type.

(** A frame selected out of the table: rows with their original labels. *)
Abbreviation frame := (list (nat * question)).

Definition rows (df : table) : frame := imap (λ i q, (i, q)) df.

Definition index (f : frame) : list nat := f.*1.

(** Messages rendered on the page. *)
Inductive color_style := darkgreen | darkorange | red.

Inductive ui_msg :=
  | StError (text : string)
  | StWarning (text : string)
  | StSuccess (text : string)
  | StException (text : string)
  | StScore (style : color_style) (correct : Z) (total : nat) (percentage : Q).

Definition is_error (m : ui_msg) : bool :=
  match m with StError _ | StException _ => true | _ => false end.

(** ** Chapter selector *)

Definition all_available_chapters (df : table) : list Z :=
  Py.sorted (Py.unique (Chapter <$> df)).

Definition msg_bad_range : ui_msg :=
  StError "Invalid range format. Please use 'start-end' (e.g., '2-5').".
Definition msg_no_such_chapter : ui_msg :=
  StError "Some entered chapters do not exist. Please check the chapter numbers.".
Definition msg_bad_list : ui_msg :=
  StError "Invalid input format. Please use comma-separated numbers (e.g., '1,2,4') or 'all' or 'start-end'.".

(** [parse_chapter_input(df, chapter_input_str)]: the returned list and the
    messages passed to [st.error]. *)
Definition parse_chapter_input (df : table) (chapter_input_str : string)
  : list Z * list ui_msg :=
  let all_chapters := all_available_chapters df in
  if decide (chapter_input_str = "all") then (all_chapters, [])
  else if Py.contains "-" chapter_input_str then
    match Py.int <$> Py.split "-" chapter_input_str with
    | [Some start; Some end_] =>
        (filter (λ ch, start ≤ ch ≤ end_) all_chapters, [])
    | _ => ([], [msg_bad_range])
    end
  else
    match mapM (λ ch, Py.int (Py.strip ch)) (Py.split "," chapter_input_str) with
    | Some selected_chapters =>
        if forallb (λ ch, bool_decide (ch ∈ all_chapters)) selected_chapters
        then (selected_chapters, [])
        else ([], [msg_no_such_chapter])
    | None => ([], [msg_bad_list])
    end.

(** ** Question filter *)

Inductive mode := normal | incorrect | new.

Global Instance mode_eq_dec : EqDecision mode.
Proof. solve_decision. Defined.

(** [df[df['Chapter'].isin(selected_chapters)]] *)
Definition filtered_df (df : table) (selected_chapters : list Z) : frame :=
  filter (λ r : nat * question, Chapter r.2 ∈ selected_chapters) (rows df).

(** [[idx for idx, count in counts.items() if count > 0]] *)
Definition incorrect_q_indices (incorrect_attempt_counts : gmap nat Z) : list nat :=
  (filter (λ kv : nat * Z, kv.2 > 0) (map_to_list incorrect_attempt_counts)).*1.

(** [[idx for idx, count in counts.items() if count == 0]] *)
Definition new_q_indices (attempted_counts : gmap nat Z) : list nat :=
  (filter (λ kv : nat * Z, kv.2 = 0) (map_to_list attempted_counts)).*1.

(** [f[f.index.isin(labels)]] *)
Definition index_isin (labels : list nat) (f : frame) : frame :=
  filter (λ r : nat * question, r.1 ∈ labels) f.

Definition get_questions_for_mode_streamlit (df : table)
    (selected_chapters : list Z) (m : mode)
    (attempted_counts incorrect_attempt_counts : gmap nat Z) : frame :=
  let filtered := filtered_df df selected_chapters in
  match m with
  | normal => filtered
  | incorrect => index_isin (incorrect_q_indices incorrect_attempt_counts) filtered
  | new => index_isin (new_q_indices attempted_counts) filtered
  end.

(** [counts.get(idx, 0)] *)
Definition get0 (counts : gmap nat Z) (idx : nat) : Z := default 0 (counts !! idx).

Definition get_question_counts_streamlit (df : table)
    (selected_chapters : list Z)
    (attempted_counts incorrect_attempt_counts : gmap nat Z) : nat * nat * nat :=
  let filtered := filtered_df df selected_chapters in
  (length filtered,
   length (filter (λ idx, get0 incorrect_attempt_counts idx > 0) (index filtered)),
   length (filter (λ idx, get0 attempted_counts idx = 0) (index filtered))).

(** ** Session state *)

Inductive stage :=
  | chapter_selection
  | mode_selection
  | num_questions_selection
  | quiz_in_progress
  | quiz_finished.

Record session := {
  quiz_stage : stage;
  data_df : table;
  selected_chapters : list Z;
  practice_mode : option mode;
  num_questions_to_ask : Z;
  quiz_questions : frame;
  current_question_idx : nat;
  correct_answers_count : Z;
  total_questions_asked : nat;
  attempted_counts : gmap nat Z;
  incorrect_attempt_counts : gmap nat Z
}.

(** [df[col].to_dict()] on the loaded table *)
Definition to_dict (col : question → Z) (df : table) : gmap nat Z :=
  map_seq 0 (col <$> df).

Definition set_quiz_stage (v : stage) (s : session) : session :=
  {| quiz_stage := v; data_df := data_df s; selected_chapters :=
     selected_chapters s; practice_mode := practice_mode s;
     num_questions_to_ask := num_questions_to_ask s; quiz_questions :=
     quiz_questions s; current_question_idx := current_question_idx s;
     correct_answers_count := correct_answers_count s; total_questions_asked
     := total_questions_asked s; attempted_counts := attempted_counts s;
     incorrect_attempt_counts := incorrect_attempt_counts s |}.

Definition set_data_df (v : table) (s : session) : session :=
  {| quiz_stage := quiz_stage s; data_df := v; selected_chapters :=
     selected_chapters s; practice_mode := practice_mode s;
     num_questions_to_ask := num_questions_to_ask s; quiz_questions :=
     quiz_questions s; current_question_idx := current_question_idx s;
     correct_answers_count := correct_answers_count s; total_questions_asked
     := total_questions_asked s; attempted_counts := attempted_counts s;
     incorrect_attempt_counts := incorrect_attempt_counts s |}.

Definition set_selected_chapters (v : list Z) (s : session) : session :=
  {| quiz_stage := quiz_stage s; data_df := data_df s; selected_chapters := v;
     practice_mode := practice_mode s; num_questions_to_ask :=
     num_questions_to_ask s; quiz_questions := quiz_questions s;
     current_question_idx := current_question_idx s; correct_answers_count :=
     correct_answers_count s; total_questions_asked := total_questions_asked
     s; attempted_counts := attempted_counts s; incorrect_attempt_counts :=
     incorrect_attempt_counts s |}.

Definition set_practice_mode (v : option mode) (s : session) : session :=
  {| quiz_stage := quiz_stage s; data_df := data_df s; selected_chapters :=
     selected_chapters s; practice_mode := v; num_questions_to_ask :=
     num_questions_to_ask s; quiz_questions := quiz_questions s;
     current_question_idx := current_question_idx s; correct_answers_count :=
     correct_answers_count s; total_questions_asked := total_questions_asked
     s; attempted_counts := attempted_counts s; incorrect_attempt_counts :=
     incorrect_attempt_counts s |}.

Definition set_num_questions_to_ask (v : Z) (s : session) : session :=
  {| quiz_stage := quiz_stage s; data_df := data_df s; selected_chapters :=
     selected_chapters s; practice_mode := practice_mode s;
     num_questions_to_ask := v; quiz_questions := quiz_questions s;
     current_question_idx := current_question_idx s; correct_answers_count :=
     correct_answers_count s; total_questions_asked := total_questions_asked
     s; attempted_counts := attempted_counts s; incorrect_attempt_counts :=
     incorrect_attempt_counts s |}.

Definition set_quiz_questions (v : frame) (s : session) : session :=
  {| quiz_stage := quiz_stage s; data_df := data_df s; selected_chapters :=
     selected_chapters s; practice_mode := practice_mode s;
     num_questions_to_ask := num_questions_to_ask s; quiz_questions := v;
     current_question_idx := current_question_idx s; correct_answers_count :=
     correct_answers_count s; total_questions_asked := total_questions_asked
     s; attempted_counts := attempted_counts s; incorrect_attempt_counts :=
     incorrect_attempt_counts s |}.

Definition set_current_question_idx (v : nat) (s : session) : session :=
  {| quiz_stage := quiz_stage s; data_df := data_df s; selected_chapters :=
     selected_chapters s; practice_mode := practice_mode s;
     num_questions_to_ask := num_questions_to_ask s; quiz_questions :=
     quiz_questions s; current_question_idx := v; correct_answers_count :=
     correct_answers_count s; total_questions_asked := total_questions_asked
     s; attempted_counts := attempted_counts s; incorrect_attempt_counts :=
     incorrect_attempt_counts s |}.

Definition set_correct_answers_count (v : Z) (s : session) : session :=
  {| quiz_stage := quiz_stage s; data_df := data_df s; selected_chapters :=
     selected_chapters s; practice_mode := practice_mode s;
     num_questions_to_ask := num_questions_to_ask s; quiz_questions :=
     quiz_questions s; current_question_idx := current_question_idx s;
     correct_answers_count := v; total_questions_asked :=
     total_questions_asked s; attempted_counts := attempted_counts s;
     incorrect_attempt_counts := incorrect_attempt_counts s |}.

Definition set_total_questions_asked (v : nat) (s : session) : session :=
  {| quiz_stage := quiz_stage s; data_df := data_df s; selected_chapters :=
     selected_chapters s; practice_mode := practice_mode s;
     num_questions_to_ask := num_questions_to_ask s; quiz_questions :=
     quiz_questions s; current_question_idx := current_question_idx s;
     correct_answers_count := correct_answers_count s; total_questions_asked
     := v; attempted_counts := attempted_counts s; incorrect_attempt_counts :=
     incorrect_attempt_counts s |}.

Definition set_attempted_counts (v : gmap nat Z) (s : session) : session :=
  {| quiz_stage := quiz_stage s; data_df := data_df s; selected_chapters :=
     selected_chapters s; practice_mode := practice_mode s;
     num_questions_to_ask := num_questions_to_ask s; quiz_questions :=
     quiz_questions s; current_question_idx := current_question_idx s;
     correct_answers_count := correct_answers_count s; total_questions_asked
     := total_questions_asked s; attempted_counts := v;
     incorrect_attempt_counts := incorrect_attempt_counts s |}.

Definition set_incorrect_attempt_counts (v : gmap nat Z) (s : session) : session :=
  {| quiz_stage := quiz_stage s; data_df := data_df s; selected_chapters :=
     selected_chapters s; practice_mode := practice_mode s;
     num_questions_to_ask := num_questions_to_ask s; quiz_questions :=
     quiz_questions s; current_question_idx := current_question_idx s;
     correct_answers_count := correct_answers_count s; total_questions_asked
     := total_questions_asked s; attempted_counts := attempted_counts s;
     incorrect_attempt_counts := v |}.

(** ** The spreadsheet service and the rest of the environment *)

(** What happens to the remote calls of one [update_gsheet_cell]. *)
Inductive api_fault :=
  | Healthy
  | AuthFails          (* service_account_from_dict / open_by_id / worksheet *)
  | HeaderReadFails    (* worksheet.row_values(1) *)
  | UpdateFails.       (* worksheet.update_cell *)

Global Instance api_fault_eq_dec : EqDecision api_fault.
Proof. solve_decision. Defined.

Record world := {
  now : Z;                              (* clock, in seconds *)
  sheet : table;                        (* the worksheet, as conn.read returns it *)
  headers : list string;                (* row 1 of the worksheet *)
  read_ok : bool;                       (* whether conn.read reaches the service *)
  cache_data : option (Z * table);      (* st.cache_data entry of the loader *)
  conn_cache : option (Z * sheet_frame); (* the connection's own cache (ttl=5) *)
  faults : list api_fault;              (* fate of the coming write calls *)
  rng : list nat;                       (* draws of the random generator *)
  requests : list (nat * string * Z)    (* calls of update_gsheet_cell so far *)
}.

Definition set_now (v : Z) (w : world) : world :=
  {| now := v; sheet := sheet w; headers := headers w; read_ok := read_ok w;
     cache_data := cache_data w; conn_cache := conn_cache w; faults := faults
     w; rng := rng w; requests := requests w |}.

Definition set_sheet (v : table) (w : world) : world :=
  {| now := now w; sheet := v; headers := headers w; read_ok := read_ok w;
     cache_data := cache_data w; conn_cache := conn_cache w; faults := faults
     w; rng := rng w; requests := requests w |}.

Definition set_headers (v : list string) (w : world) : world :=
  {| now := now w; sheet := sheet w; headers := v; read_ok := read_ok w;
     cache_data := cache_data w; conn_cache := conn_cache w; faults := faults
     w; rng := rng w; requests := requests w |}.

Definition set_read_ok (v : bool) (w : world) : world :=
  {| now := now w; sheet := sheet w; headers := headers w; read_ok := v;
     cache_data := cache_data w; conn_cache := conn_cache w; faults := faults
     w; rng := rng w; requests := requests w |}.

Definition set_cache_data (v : option (Z * table)) (w : world) : world :=
  {| now := now w; sheet := sheet w; headers := headers w; read_ok := read_ok
     w; cache_data := v; conn_cache := conn_cache w; faults := faults w; rng
     := rng w; requests := requests w |}.

Definition set_conn_cache (v : option (Z * sheet_frame)) (w : world) : world :=
  {| now := now w; sheet := sheet w; headers := headers w; read_ok := read_ok
     w; cache_data := cache_data w; conn_cache := v; faults := faults w; rng
     := rng w; requests := requests w |}.

Definition set_faults (v : list api_fault) (w : world) : world :=
  {| now := now w; sheet := sheet w; headers := headers w; read_ok := read_ok
     w; cache_data := cache_data w; conn_cache := conn_cache w; faults := v;
     rng := rng w; requests := requests w |}.

Definition set_rng (v : list nat) (w : world) : world :=
  {| now := now w; sheet := sheet w; headers := headers w; read_ok := read_ok
     w; cache_data := cache_data w; conn_cache := conn_cache w; faults :=
     faults w; rng := v; requests := requests w |}.

Definition set_requests (v : list (nat * string * Z)) (w : world) : world :=
  {| now := now w; sheet := sheet w; headers := headers w; read_ok := read_ok
     w; cache_data := cache_data w; conn_cache := conn_cache w; faults :=
     faults w; rng := rng w; requests := v |}.

(** ** Script monad: state, page output and Streamlit's control flow *)

Inductive exn := KeyError | IndexError | TypeError | APIError | ZeroDivisionError.

Inductive ctl (A : Type) :=
  | Normal (a : A)
  | Raise (e : exn)     (* uncaught exception: the run ends, the page shows it *)
  | Rerun               (* st.rerun() *)
  | Stop.               (* st.stop() *)
Arguments Normal {A} a.
Arguments Raise {A} e.
Arguments Rerun {A}.
Arguments Stop {A}.

Record app := { sess : session; wld : world; page : list ui_msg }.

Definition M (A : Type) : Type := app → ctl A * app.

Definition ret {A} (x : A) : M A := λ a, (Normal x, a).

Definition bind {A B} (m : M A) (k : A → M B) : M B :=
  λ a, match m a with
       | (Normal x, a') => k x a'
       | (Raise e, a') => (Raise e, a')
       | (Rerun, a') => (Rerun, a')
       | (Stop, a') => (Stop, a')
       end.

Notation "x <- m ;; k" := (bind m (λ x, k))
  (at level 100, m at next level, right associativity,
   format "'[v' x  <-  m  ;;  '/' k ']'").
Notation "m ;; k" := (bind m (λ _, k))
  (at level 100, right associativity, format "'[v' m  ;;  '/' k ']'").

Definition raise {A} (e : exn) : M A := λ a, (Raise e, a).
Definition st_rerun {A} : M A := λ a, (Rerun, a).
Definition st_stop {A} : M A := λ a, (Stop, a).

Definition get_session : M session := λ a, (Normal (sess a), a).
Definition modify_session (f : session → session) : M unit :=
  λ a, (Normal tt, {| sess := f (sess a); wld := wld a; page := page a |}).
Definition get_world : M world := λ a, (Normal (wld a), a).
Definition modify_world (f : world → world) : M unit :=
  λ a, (Normal tt, {| sess := sess a; wld := f (wld a); page := page a |}).
Definition show (m : ui_msg) : M unit :=
  λ a, (Normal tt, {| sess := sess a; wld := wld a; page := page a ++ [m] |}).

Definition st_error (text : string) : M unit := show (StError text).
Definition st_warning (text : string) : M unit := show (StWarning text).
Definition st_success (text : string) : M unit := show (StSuccess text).

(** ** Question store adapter *)

Definition cache_ttl : Z := 600.
Definition conn_ttl : Z := 5.

(** The value of a cache entry that is younger than [ttl]. *)
Definition cached {A} (ttl t_now : Z) (entry : option (Z * A)) : option A :=
  match entry with
  | Some (t, x) => if decide (t_now - t < ttl) then Some x else None
  | None => None
  end.

(** [conn.read(spreadsheet=..., worksheet=..., ttl=5)]; [None] stands for
    an exception of the transport. *)
Definition conn_read : M (option sheet_frame) :=
  w <- get_world ;;
  match cached conn_ttl (now w) (conn_cache w) with
  | Some df => ret (Some df)
  | None =>
      if read_ok w then
        (modify_world (set_conn_cache (Some (now w, (headers w, sheet w)))) ;;
         ret (Some (headers w, sheet w)))
      else ret None
  end.

(** [.astype(int)]: the value as a signed 64-bit integer. *)
Definition astype_int (z : Z) : Z := (z + 2 ^ 63) mod 2 ^ 64 - 2 ^ 63.

(** [pd.to_numeric(column, errors='coerce').fillna(0).astype(int)] on a
    cell: the integer the cell reads as, brought into 64 bits. *)
Definition to_numeric_int (cell : Z) : Z := astype_int cell.

(** [df.index + 1] at position [i] *)
Definition index_plus_1 (i : nat) : Z := Z.of_nat i + 1.

Definition msg_no_question_no : ui_msg :=
  StWarning "Column 'Question No.' not found in your Google Sheet. Questions will not display their number.".

(** The message of a failed load; the text of the exception is left out. *)
Definition msg_load : ui_msg :=
  StError "Error loading data from Google Sheet. Please check your Sheet ID, Worksheet Name, and service account permissions.".

(** The [except] branch of the loader: the message and [st.stop()]. *)
Definition load_failed {A} : M A :=
  show msg_load ;;
  st_stop.

(** [load_data_from_gsheets()] under [@st.cache_data(ttl=600)]: the body
    runs when the cache has no entry younger than 600 seconds. A counter
    column that the frame lacks raises [KeyError] inside the [try]. *)
Definition load_data_from_gsheets : M table :=
  w <- get_world ;;
  match cached cache_ttl (now w) (cache_data w) with
  | Some df => ret df
  | None =>
      r <- conn_read ;;
      match r with
      | Some (columns, df) =>
          if decide ("Attempted" ∈ columns) then
            let df := (λ q, set_Attempted (to_numeric_int (Attempted q)) q) <$> df in
            if decide ("Incorrect attempt" ∈ columns) then
              let df :=
                (λ q, set_Incorrect_attempt (to_numeric_int (Incorrect_attempt q)) q)
                  <$> df in
              df <- (if decide ("Question No." ∈ columns) then
                       ret ((λ q, set_Question_No (to_numeric_int (Question_No q)) q)
                              <$> df)
                     else
                       (show msg_no_question_no ;;
                        ret (imap (λ i q, set_Question_No (index_plus_1 i) q) df))) ;;
              modify_world (set_cache_data (Some (now w, df))) ;;
              ret df
            else load_failed
          else load_failed
      | None => load_failed
      end
  end.

(** [headers.index(col_name)] *)
Definition headers_index (col_name : string) (hs : list string) : option nat :=
  fst <$> list_find (λ h, h = col_name) hs.

(** The row once the cell of column [col_name] holds the number [value].
    A number put in a column of text is kept as its decimal text; a name
    that is no column of [question] has no cell in the row. *)
Definition set_column (col_name : string) (value : Z) (q : question) : question :=
  if decide (col_name = "Chapter") then set_Chapter value q
  else if decide (col_name = "Question No.") then set_Question_No value q
  else if decide (col_name = "Question") then set_Question (pretty value) q
  else if decide (col_name = "Option A") then set_Option_A (pretty value) q
  else if decide (col_name = "Option B") then set_Option_B (pretty value) q
  else if decide (col_name = "Option C") then set_Option_C (pretty value) q
  else if decide (col_name = "Option D") then set_Option_D (pretty value) q
  else if decide (col_name = "Correct Answer") then set_Correct_Answer (pretty value) q
  else if decide (col_name = "Reason") then set_Reason (pretty value) q
  else if decide (col_name = "Attempted") then set_Attempted value q
  else if decide (col_name = "Incorrect attempt") then set_Incorrect_attempt value q
  else q.

(** [worksheet.update_cell(row, col, value)], both 1-based; row 1 holds
    the headers. *)
Definition worksheet_update_cell (row col : nat) (value : Z) (w : world) : world :=
  match headers w !! (col - 1)%nat with
  | Some col_name =>
      if decide (2 ≤ row)%nat
      then set_sheet (alter (set_column col_name value) (row - 2)%nat (sheet w)) w
      else w
  | None => w
  end.

(** The fate of the next write call. *)
Definition next_fault : M api_fault :=
  w <- get_world ;;
  modify_world (set_faults (tl (faults w))) ;;
  ret (hd Healthy (faults w)).

Definition msg_auth : ui_msg :=
  StError "Error authenticating with Google Sheets or opening sheet. Check your `gcp_service_account` secret and Sheet ID/Name.".
Definition msg_column (col_name : string) : ui_msg :=
  StError ("Column '" +:+ col_name +:+ "' not found in Google Sheet headers. Cannot update.").
Definition msg_update (row col : nat) : ui_msg :=
  StError ("Error updating cell in Google Sheet at row " +:+ pretty row +:+ ", col " +:+ pretty col +:+ ". Check sheet permissions for service account.").

(** [update_gsheet_cell(row_index, col_name, value)]. The call is recorded
    in [requests] on entry. The second remote call, reading the header row,
    is outside any [try]. The text of the exceptions is left out of the
    messages. *)
Definition update_gsheet_cell (row_index : nat) (col_name : string) (value : Z)
  : M unit :=
  modify_world (λ w, set_requests (requests w ++ [(row_index, col_name, value)]) w) ;;
  f <- next_fault ;;
  if decide (f = AuthFails) then show msg_auth
  else
    hs <- (if decide (f = HeaderReadFails) then raise APIError
           else (w <- get_world ;; ret (headers w))) ;;
    match headers_index col_name hs with
    | None => show (msg_column col_name)
    | Some i =>
        let col_index_to_update := (i + 1)%nat in
        let gsheet_row_number := (row_index + 2)%nat in
        if decide (f = UpdateFails)
        then show (msg_update gsheet_row_number col_index_to_update)
        else
          modify_world (worksheet_update_cell gsheet_row_number col_index_to_update value)
    end.

(** ** Session state initialization *)

Definition initial_session (df : table) : session :=
  {| quiz_stage := chapter_selection;
     data_df := df;
     selected_chapters := [];
     practice_mode := None;
     num_questions_to_ask := 0;
     quiz_questions := [];
     current_question_idx := 0;
     correct_answers_count := 0;
     total_questions_asked := 0;
     attempted_counts := to_dict Attempted df;
     incorrect_attempt_counts := to_dict Incorrect_attempt df |}.

(** The block under [if 'quiz_stage' not in st.session_state], on the first
    run of a session: [quiz_stage] is assigned before the table is loaded,
    the other keys after it. *)
Definition session_state_initialization : M unit :=
  modify_session (set_quiz_stage chapter_selection) ;;
  df <- load_data_from_gsheets ;;
  modify_session (set_data_df df) ;;
  modify_session (set_selected_chapters []) ;;
  modify_session (set_practice_mode None) ;;
  modify_session (set_num_questions_to_ask 0) ;;
  modify_session (set_quiz_questions []) ;;
  modify_session (set_current_question_idx 0%nat) ;;
  modify_session (set_correct_answers_count 0) ;;
  modify_session (set_total_questions_asked 0%nat) ;;
  s <- get_session ;;
  modify_session (set_attempted_counts (to_dict Attempted (data_df s))) ;;
  s <- get_session ;;
  modify_session (set_incorrect_attempt_counts (to_dict Incorrect_attempt (data_df s))).

(** ** Stage handlers *)

Fixpoint show_all (ms : list ui_msg) : M unit :=
  match ms with
  | [] => ret tt
  | m :: r => (show m ;; show_all r)
  end.

(** Stage A1, "Confirm Chapters". *)
Definition confirm_chapters (chapter_input : string) : M unit :=
  s <- get_session ;;
  let '(selected_chs, errors) := parse_chapter_input (data_df s) chapter_input in
  show_all errors ;;
  match selected_chs with
  | [] => ret tt
  | _ :: _ =>
      (modify_session (set_selected_chapters selected_chs) ;;
       modify_session (set_quiz_stage mode_selection) ;;
       st_rerun)
  end.

(** Stage A2: the modes offered. *)
Definition mode_options (s : session) : list mode :=
  let '(total_selected_questions, incorrect_count, new_count) :=
    get_question_counts_streamlit (data_df s) (selected_chapters s)
      (attempted_counts s) (incorrect_attempt_counts s) in
  (if decide (0 < total_selected_questions)%nat then [normal] else []) ++
  (if decide (0 < incorrect_count)%nat then [incorrect] else []) ++
  (if decide (0 < new_count)%nat then [new] else []).

Definition select_mode (m : mode) : M unit :=
  modify_session (set_practice_mode (Some m)) ;;
  modify_session (set_quiz_stage num_questions_selection) ;;
  st_rerun.

Definition go_back (to : stage) : M unit :=
  modify_session (set_quiz_stage to) ;;
  st_rerun.

(** Stage A3: the pool of the chosen mode. A mode that is none of the three
    makes the filter return [None], whose [len] raises. *)
Definition quiz_pool_df : M frame :=
  s <- get_session ;;
  match practice_mode s with
  | Some m =>
      ret (get_questions_for_mode_streamlit (data_df s) (selected_chapters s) m
             (attempted_counts s) (incorrect_attempt_counts s))
  | None => raise TypeError
  end.

(** [quiz_pool_df.sample(n=num_questions)] with the generator of the world *)
Definition df_sample (pool : frame) (n : nat) : M frame :=
  w <- get_world ;;
  modify_world (set_rng (drop n (rng w))) ;;
  ret (Py.sample (rng w) pool n).

(** [st.number_input(label, min_value, max_value, value, step=1)]: the
    number the widget holds when the script runs. The widget accepts an
    entry within its bounds only; without one it holds [value]. *)
Definition st_number_input (min_value max_value value entry : Z) : Z :=
  if decide (min_value ≤ entry ≤ max_value) then entry else value.

(** Stage A3, "Start Quiz". *)
Definition start_quiz (pool : frame) (num_questions : Z) : M unit :=
  let max_questions_available := length pool in
  if decide (num_questions > 0 ∧ num_questions ≤ Z.of_nat max_questions_available) then
    modify_session (set_num_questions_to_ask num_questions) ;;
    qs <- (if decide (num_questions < Z.of_nat max_questions_available)
           then df_sample pool (Z.to_nat num_questions)
           else ret pool) ;;
    modify_session (set_quiz_questions qs) ;;
    modify_session (set_total_questions_asked (length qs)) ;;
    modify_session (set_current_question_idx 0%nat) ;;
    modify_session (set_correct_answers_count 0) ;;
    modify_session (set_quiz_stage quiz_in_progress) ;;
    st_rerun
  else
    st_error ("Please enter a number between 1 and " +:+ pretty max_questions_available +:+ ".").

(** The four radio options of a question. *)
Inductive option_key := key_a | key_b | key_c | key_d.

Definition key_text (k : option_key) : string :=
  match k with key_a => "a" | key_b => "b" | key_c => "c" | key_d => "d" end.

(** [counts[idx]] *)
Definition getitem (sel : session → gmap nat Z) (idx : nat) : M Z :=
  s <- get_session ;;
  match sel s !! idx with
  | Some v => ret v
  | None => raise KeyError
  end.

(** [counts[idx] += 1] *)
Definition increment (sel : session → gmap nat Z)
    (upd : gmap nat Z → session → session) (idx : nat) : M unit :=
  v <- getitem sel idx ;;
  s <- get_session ;;
  modify_session (upd (<[idx := v + 1]> (sel s))).

(** Stage B1, "Submit Answer", for the question at the cursor. *)
Definition submit_answer (user_choice_key : option_key) : M unit :=
  s <- get_session ;;
  match quiz_questions s !! current_question_idx s with
  | None => raise IndexError
  | Some (original_df_index, current_q_data) =>
      let correct_answer_key := Py.lower (Correct_Answer current_q_data) in
      increment attempted_counts set_attempted_counts original_df_index ;;
      attempted <- getitem attempted_counts original_df_index ;;
      update_gsheet_cell original_df_index "Attempted" attempted ;;
      (if decide (key_text user_choice_key = correct_answer_key) then
         st_success "Correct!" ;;
         s1 <- get_session ;;
         modify_session (set_correct_answers_count (correct_answers_count s1 + 1)) ;;
         s2 <- get_session ;;
         modify_session
           (set_incorrect_attempt_counts
              (<[original_df_index := 0]> (incorrect_attempt_counts s2))) ;;
         reset <- getitem incorrect_attempt_counts original_df_index ;;
         update_gsheet_cell original_df_index "Incorrect attempt" reset
       else
         st_error ("Incorrect. The correct answer was " +:+ Py.upper correct_answer_key +:+ ".") ;;
         st_warning ("Reason: " +:+ Reason current_q_data) ;;
         increment incorrect_attempt_counts set_incorrect_attempt_counts
           original_df_index ;;
         wrong <- getitem incorrect_attempt_counts original_df_index ;;
         update_gsheet_cell original_df_index "Incorrect attempt" wrong) ;;
      s3 <- get_session ;;
      modify_session (set_current_question_idx (S (current_question_idx s3)))
  end.

(** ** Finished stage *)

(** [a / b] on two integers: true division, [ZeroDivisionError] at [b = 0]. *)
Definition true_div (a b : Z) : M Q :=
  if decide (b = 0) then raise ZeroDivisionError
  else ret (inject_Z a / inject_Z b)%Q.

(** The colour of the heading. *)
Definition band (p : Q) : color_style :=
  if Qle_bool 80 p then darkgreen
  else if Qle_bool 70 p then darkorange
  else red.

(** The finished stage up to its heading: [percentage] is 0 when nothing
    was asked and [(correct / total) * 100] otherwise. *)
Definition show_score : M unit :=
  s <- get_session ;;
  let correct := correct_answers_count s in
  let total := total_questions_asked s in
  percentage <- (if decide (total = 0%nat) then ret 0%Q
                 else (ratio <- true_div correct (Z.of_nat total) ;;
                       ret (ratio * 100)%Q)) ;;
  show (StScore (band percentage) correct total percentage).

(** "Start New Quiz". *)
Definition start_new_quiz : M unit :=
  df <- load_data_from_gsheets ;;
  modify_session (set_data_df df) ;;
  s <- get_session ;;
  modify_session (set_attempted_counts (to_dict Attempted (data_df s))) ;;
  s <- get_session ;;
  modify_session (set_incorrect_attempt_counts (to_dict Incorrect_attempt (data_df s))) ;;
  modify_session (set_quiz_stage chapter_selection) ;;
  modify_session (set_selected_chapters []) ;;
  modify_session (set_practice_mode None) ;;
  modify_session (set_num_questions_to_ask 0) ;;
  modify_session (set_quiz_questions []) ;;
  modify_session (set_current_question_idx 0%nat) ;;
  modify_session (set_correct_answers_count 0) ;;
  modify_session (set_total_questions_asked 0%nat) ;;
  st_rerun.

(** ** The script *)

Inductive event :=
  | ConfirmChapters (chapter_input : string)
  | GoBackToChapterSelection
  | SelectMode (m : mode)
  | GoBackToModeSelection
  | StartQuiz (entry : Z)            (* with the number entered in the input *)
  | SubmitAnswer (user_choice_key : option_key)
  | NextQuestion
  | StartNewQuiz.

(** One run of the script below the initialization: the branch of the
    current stage, with the button that was pressed, if any. *)
Definition script (ev : option event) : M unit :=
  s <- get_session ;;
  match quiz_stage s with
  | chapter_selection =>
      match ev with
      | Some (ConfirmChapters chapter_input) => confirm_chapters chapter_input
      | _ => ret tt
      end
  | mode_selection =>
      match mode_options s, ev with
      | [], Some GoBackToChapterSelection => go_back chapter_selection
      | [], _ =>
          st_warning "No questions available for any practice mode based on your selection. Please adjust chapters."
      | opts, Some (SelectMode m) =>
          if decide (m ∈ opts) then select_mode m else ret tt
      | _, _ => ret tt
      end
  | num_questions_selection =>
      pool <- quiz_pool_df ;;
      match pool, ev with
      | [], Some GoBackToModeSelection => go_back mode_selection
      | [], _ =>
          st_warning "No questions available for the selected mode. Please choose another mode."
      | _, Some (StartQuiz entry) =>
          let max_questions_available := Z.of_nat (length pool) in
          let num_questions :=
            st_number_input 1 max_questions_available
              (Z.min 10 max_questions_available) entry in
          start_quiz pool num_questions
      | _, _ => ret tt
      end
  | quiz_in_progress =>
      if decide (current_question_idx s < total_questions_asked s)%nat then
        match quiz_questions s !! current_question_idx s, ev with
        | None, _ => raise IndexError
        | Some _, Some (SubmitAnswer user_choice_key) => submit_answer user_choice_key
        | Some _, _ => ret tt
        end
      else
        (modify_session (set_quiz_stage quiz_finished) ;;
         st_rerun)
  | quiz_finished =>
      show_score ;;
      match ev with
      | Some StartNewQuiz => start_new_quiz
      | _ => ret tt
      end
  end.

Definition clear_page (a : app) : app :=
  {| sess := sess a; wld := wld a; page := [] |}.

(** What the framework does with the outcome of a run: [st.rerun()] runs
    the script again without a button, an uncaught exception is shown on
    the page. The session survives in every case. *)
Fixpoint run (budget : nat) (ev : option event) (a : app) : app :=
  match script ev (clear_page a) with
  | (Rerun, a') =>
      match budget with
      | O => a'
      | S budget' => run budget' None a'
      end
  | (Raise e, a') =>
      {| sess := sess a'; wld := wld a';
         page := page a' ++ [StException "uncaught exception"] |}
  | (_, a') => a'
  end.

(** A button press; two reruns at most follow one press. *)
Definition press (ev : event) (a : app) : app := run 3 (Some ev) a.

Definition advance (dt : Z) (a : app) : app :=
  {| sess := sess a; wld := set_now (now (wld a) + dt) (wld a); page := page a |}.

Definition mkq (ch : Z) (ans : string) (att inc : Z) : question :=
  {| Chapter := ch; Question_No := 0; Question := ""; Option_A := "";
     Option_B := ""; Option_C := ""; Option_D := ""; Correct_Answer := ans;
     Reason := ""; Attempted := att; Incorrect_attempt := inc |}.

Definition demo : table :=
  [mkq 3 "A" 0 0; mkq 1 "b" 2 1; mkq 2 "C" 1 0; mkq 1 "D" 0 0].

Definition schema : list string :=
  ["Chapter"; "Question No."; "Question"; "Option A"; "Option B"; "Option C";
   "Option D"; "Correct Answer"; "Reason"; "Attempted"; "Incorrect attempt"].

Definition w0 : world :=
  {| now := 0; sheet := demo; headers := schema;
     read_ok := true; cache_data := None; conn_cache := None;
     faults := []; rng := [5; 7; 1]%nat; requests := [] |}.

(** The first run of a session in the world [w]. Before it the session
    state has no key: the record it starts from holds place holders, all of
    them overwritten when the load succeeds. *)
Definition boot (w : world) : ctl unit * app :=
  session_state_initialization {| sess := initial_session []; wld := w; page := [] |}.

(** A session on [demo]: chapters 1-2, new questions only, one question
    (row 3, whose answer is D), answered correctly, then the restart one
    minute after the table was loaded. *)
Definition a1 : app := press (ConfirmChapters "1-2") (boot w0).2.
Definition a2 : app := press (SelectMode new) a1.
Definition a3 : app := press (StartQuiz 1) a2.
Definition a4 : app := press (SubmitAnswer key_d) a3.
Definition a5 : app := press NextQuestion a4.
Definition a6 : app := press StartNewQuiz (advance 60 a5).

(** The same session when the header row cannot be read at the first write. *)
Definition a3_header_failure : app :=
  {| sess := sess a3; wld := set_faults [HeaderReadFails] (wld a3); page := page a3 |}.

(** Another one: all chapters, normal mode, the pool has the four rows. *)
Definition b1 : app := press (ConfirmChapters "all") (boot w0).2.
Definition b2 : app := press (SelectMode normal) b1.

(** A worksheet whose only row has a negative cell in the incorrect
    column, and the session on it up to the question. *)
Definition w_negative : world :=
  {| now := 0; sheet := [mkq 1 "D" 0 (-2)]; headers := schema;
     read_ok := true; cache_data := None; conn_cache := None;
     faults := []; rng := []; requests := [] |}.

Definition n1 : app := press (ConfirmChapters "all") (boot w_negative).2.
Definition n2 : app := press (SelectMode normal) n1.
Definition n3 : app := press (StartQuiz 1) n2.

(** A worksheet without the column of question numbers, and one whose
    first row has a counter beyond 64 bits. *)
Definition w_no_number : world :=
  {| now := 0; sheet := demo;
     headers := ["Chapter"; "Question"; "Correct Answer"; "Attempted"; "Incorrect attempt"];
     read_ok := true; cache_data := None; conn_cache := None;
     faults := []; rng := []; requests := [] |}.

Definition w_wide : world :=
  {| now := 0; sheet := [mkq 1 "a" (2 ^ 63) 0]; headers := schema;
     read_ok := true; cache_data := None; conn_cache := None;
     faults := []; rng := []; requests := [] |}.

(** ** Notions used in the statements *)

(** A string that does not begin with whitespace. *)
Definition starts_clean (s : string) : Prop :=
  match s with String c _ => Py.is_space c = false | EmptyString => True end.

(** The questions [start_quiz] puts in the session. *)
Definition drawn (w : world) (pool : frame) (n : Z) : frame :=
  if decide (n < Z.of_nat (length pool))
  then Py.sample (rng w) pool (Z.to_nat n) else pool.

(** The world once a write call is recorded and its fate is drawn. *)
Definition entered (row : nat) (col : string) (v : Z) (w : world) : world :=
  set_faults (tl (faults w)) (set_requests (requests w ++ [(row, col, v)]) w).

(** The test of the handler: [user_choice_key == correct_answer_key]. *)
Definition is_correct (user_choice_key : option_key) (q : question) : Prop :=
  key_text user_choice_key = Py.lower (Correct_Answer q).

Global Instance is_correct_dec k q : Decision (is_correct k q).
Proof. unfold is_correct. apply _. Defined.

(** Two characters that are equal, or the capital and the small form of
    one letter. *)
Definition same_char_nocase (c d : ascii) : bool :=
  let m := N_of_ascii c in
  let n := N_of_ascii d in
  ((m =? n) || (65 <=? m) && (m <=? 90) && (n =? m + 32)
            || (65 <=? n) && (n <=? 90) && (m =? n + 32))%N.

(** Two strings that are equal up to the case of their letters. *)
Fixpoint eq_nocase (s t : string) : bool :=
  match s, t with
  | EmptyString, EmptyString => true
  | String c s', String d t' => same_char_nocase c d && eq_nocase s' t'
  | _, _ => false
  end.

(** The label chosen and the stored label, compared without case. *)
Definition same_label (user_choice_key : option_key) (q : question) : Prop :=
  eq_nocase (key_text user_choice_key) (Correct_Answer q) = true.

(** The percentage the heading of the finished stage shows. *)
Definition percentage (correct : Z) (total : nat) : Q :=
  if decide (total = 0%nat) then 0%Q
  else ((inject_Z correct / inject_Z (Z.of_nat total)) * 100)%Q.

(** The heading of the finished stage: style, score and percentage. *)
Definition score_banner (s : session) : ui_msg :=
  let correct := correct_answers_count s in
  let total := total_questions_asked s in
  let p := percentage correct total in
  StScore (band p) correct total p.

(** The row at position [i] as the loader leaves it, for a frame with the
    columns [columns]: the two counters brought into 64 bits, and the
    question number too, or the position plus one without that column. *)
Definition loaded_row (columns : list string) (i : nat) (q : question) : question :=
  set_Question_No
    (if decide ("Question No." ∈ columns) then to_numeric_int (Question_No q)
     else index_plus_1 i)
    (set_Incorrect_attempt (to_numeric_int (Incorrect_attempt q))
       (set_Attempted (to_numeric_int (Attempted q)) q)).

Definition loaded (columns : list string) (df : table) : table :=
  imap (loaded_row columns) df.

(** The warning of the loader, for a frame without question numbers. *)
Definition load_messages (columns : list string) : list ui_msg :=
  if decide ("Question No." ∈ columns) then [] else [msg_no_question_no].

(** An integer that fits in 64 bits. *)
Definition int64 (z : Z) : Prop := - 2 ^ 63 ≤ z < 2 ^ 63.

(** What the cell of a column holds, as a number or as text; [None] for a
    name that is no column of [question]. *)
Inductive cell_value := Number (z : Z) | Text (t : string).

Definition cell (col_name : string) (q : question) : option cell_value :=
  if decide (col_name = "Chapter") then Some (Number (Chapter q))
  else if decide (col_name = "Question No.") then Some (Number (Question_No q))
  else if decide (col_name = "Question") then Some (Text (Question q))
  else if decide (col_name = "Option A") then Some (Text (Option_A q))
  else if decide (col_name = "Option B") then Some (Text (Option_B q))
  else if decide (col_name = "Option C") then Some (Text (Option_C q))
  else if decide (col_name = "Option D") then Some (Text (Option_D q))
  else if decide (col_name = "Correct Answer") then Some (Text (Correct_Answer q))
  else if decide (col_name = "Reason") then Some (Text (Reason q))
  else if decide (col_name = "Attempted") then Some (Number (Attempted q))
  else if decide (col_name = "Incorrect attempt") then Some (Number (Incorrect_attempt q))
  else None.

(** The cell of a column once the number [v] is written into it. *)
Definition written (col_name : string) (v : Z) (q : question) : option cell_value :=
  match cell col_name q with
  | Some (Number _) => Some (Number v)
  | Some (Text _) => Some (Text (pretty v))
  | None => None
  end.

(** The session after a submission that was graded. *)
Definition graded (k : option_key) (idx : nat) (q : question) (s : session) : session :=
  let s1 :=
    set_attempted_counts
      (<[idx := get0 (attempted_counts s) idx + 1]> (attempted_counts s)) s in
  set_current_question_idx (S (current_question_idx s))
    (if decide (is_correct k q) then
       set_incorrect_attempt_counts (<[idx := 0]> (incorrect_attempt_counts s))
         (set_correct_answers_count (correct_answers_count s + 1) s1)
     else
       set_incorrect_attempt_counts
         (<[idx := get0 (incorrect_attempt_counts s) idx + 1]>
            (incorrect_attempt_counts s)) s1).

(** The value written to the incorrect column by a graded submission. *)
Definition incorrect_written (k : option_key) (idx : nat) (q : question)
    (s : session) : Z :=
  if decide (is_correct k q) then 0
  else get0 (incorrect_attempt_counts s) idx + 1.

(** The expressions of the grammar: ["all"]; with a ["-"], two integers
    around it; otherwise a comma list of integers that are chapters of the
    table. *)
Definition valid_expression (df : table) (s : string) : Prop :=
  s = "all" ∨
  (Py.contains "-" s = true ∧
   ∃ a b, s = a +:+ "-" +:+ b ∧ is_Some (Py.int a) ∧ is_Some (Py.int b)) ∨
  (Py.contains "-" s = false ∧
   Forall (λ tok, ∃ ch, Py.int tok = Some ch ∧ ch ∈ all_available_chapters df)
     (Py.split "," s)).

(** ** Invariants of the session *)

(** Both counter dicts have an entry exactly for the row labels of the
    loaded table, the questions of the quiz carry labels of that table,
    [total_questions_asked] is their number, and a mode is chosen by the
    time the count is asked for. *)
Definition wf_session (s : session) : Prop :=
  (∀ i, is_Some (attempted_counts s !! i) ↔ (i < length (data_df s))%nat) ∧
  (∀ i, is_Some (incorrect_attempt_counts s !! i) ↔ (i < length (data_df s))%nat) ∧
  (∀ r, r ∈ quiz_questions s → (r.1 < length (data_df s))%nat) ∧
  total_questions_asked s = length (quiz_questions s) ∧
  (quiz_stage s = num_questions_selection → is_Some (practice_mode s)).

(** The score is at most the cursor, which is at most the number of
    questions of the quiz. *)
Definition score_bounded (s : session) : Prop :=
  0 ≤ correct_answers_count s ≤ Z.of_nat (current_question_idx s) ∧
  (current_question_idx s ≤ total_questions_asked s)%nat.

(** No coming write call fails at reading the header row. *)
Definition reliable (w : world) : Prop := HeaderReadFails ∉ faults w.

(** The service answers every coming write call. *)
Definition healthy (w : world) : Prop := Forall (λ f, f = Healthy) (faults w).

(** What one run of the script keeps, from the state [a] it starts in to
    its outcome [r]: the session stays well formed, the only exception that
    can escape is the one of a header read, and with a service that never
    fails there the score stays bounded. *)
Definition step_ok (a : app) (r : ctl unit * app) : Prop :=
  wf_session (sess r.2) ∧
  (∀ e, r.1 = Raise e → e = APIError ∧ ¬ reliable (wld a)) ∧
  (reliable (wld a) → reliable (wld r.2)) ∧
  (reliable (wld a) → score_bounded (sess a) → score_bounded (sess r.2)).

(** The states a session can be in: after a successful initialization,
    after a button press, and after any change of the world around it (time
    passing, edits of the spreadsheet, the service failing or recovering). *)
Inductive reachable : app → Prop :=
  | reach_boot (w : world) :
      (boot w).1 = Normal tt → reachable (boot w).2
  | reach_press (ev : event) (a : app) :
      reachable a → reachable (press ev a)
  | reach_world (a : app) (w : world) :
      reachable a → reachable {| sess := sess a; wld := w; page := page a |}.

(** What lives beyond one screen is the same in [a'] as in [a]: the two
    counter dicts, the loaded table, the spreadsheet and the list of write
    calls. *)
Definition same_store (a a' : app) : Prop :=
  attempted_counts (sess a') = attempted_counts (sess a) ∧
  incorrect_attempt_counts (sess a') = incorrect_attempt_counts (sess a) ∧
  data_df (sess a') = data_df (sess a) ∧
  sheet (wld a') = sheet (wld a) ∧
  requests (wld a') = requests (wld a).

(** A run with no "Submit Answer" and no "Start New Quiz". *)
Definition quiet (ev : option event) : Prop :=
  match ev with
  | Some (SubmitAnswer _) | Some StartNewQuiz => False
  | _ => True
  end.

(** The answers [ks] submitted one after the other. *)
Definition answers (ks : list option_key) (a : app) : app :=
  foldl (λ a k, press (SubmitAnswer k) a) a ks.

(** The questions still to be answered, from the cursor on. *)
Definition remaining (s : session) : frame :=
  drop (current_question_idx s) (quiz_questions s).

(** Unfolds the primitives of the script monad. *)
Ltac monad_unfold :=
  cbv [bind ret raise st_rerun st_stop get_session modify_session get_world
       modify_world show st_error st_warning st_success].


(** * Properties *)

(** ** Strings *)

Section strings.
Implicit Types (c : ascii) (s t : string).

Lemma split_nonempty c s : Py.split c s ≠ [].
Proof. destruct s as [|a r]; simpl; [done|]. case_decide; [done|]. by destruct (Py.split c r). Qed.

Lemma split_no_sep c s : Py.contains c s = false → Py.split c s = [s].
Proof.
  induction s as [|a r IH]; simpl; [done|].
  case_decide; [done|]. intros Hr. by rewrite IH.
Qed.

Lemma contains_sep c s t : Py.contains c (s +:+ String c t) = true.
Proof. induction s as [|a r IH]; simpl; case_decide; done. Qed.

Lemma split_two c s t :
  Py.contains c s = false → Py.contains c t = false →
  Py.split c (s +:+ String c t) = [s; t].
Proof.
  intros Hs Ht. induction s as [|a r IH]; simpl in *.
  - case_decide; [|done]. by rewrite split_no_sep.
  - case_decide; [done|]. by rewrite IH.
Qed.

Lemma split_one_inv c s b : Py.split c s = [b] → s = b.
Proof.
  revert b. induction s as [|x r IH]; intros b; simpl; [congruence|].
  case_decide.
  - intros [= _ Hr]. by apply split_nonempty in Hr.
  - destruct (Py.split c r) as [|h [|]] eqn:Hr; intros [=]; subst.
    + by apply split_nonempty in Hr.
    + f_equal. by apply IH.
Qed.

(** The pieces of a split, joined by the separator, give the string back. *)
Lemma split_two_inv c s a b : Py.split c s = [a; b] → s = a +:+ String c b.
Proof.
  revert a. induction s as [|x r IH]; intros a; simpl; [done|].
  case_decide as Hx.
  - intros [= Ha Hr]. subst x a. apply (split_one_inv c) in Hr. by subst r.
  - destruct (Py.split c r) as [|h [|h' [|]]] eqn:Hr; intros [=]; subst.
    by rewrite (IH h eq_refl).
Qed.

Lemma lstrip_clean s : starts_clean (Py.lstrip s).
Proof. induction s as [|c r IH]; simpl; [done|]. by destruct (Py.is_space c) eqn:?. Qed.

Lemma lstrip_of_clean s : starts_clean s → Py.lstrip s = s.
Proof. destruct s as [|c r]; simpl; [done|]. by intros ->. Qed.

Lemma rstrip_clean s : starts_clean s → starts_clean (Py.rstrip s).
Proof.
  destruct s as [|c r]; simpl; [done|]. intros Hc.
  destruct (Py.rstrip r); simpl; by rewrite ?Hc.
Qed.

Lemma rstrip_idemp s : Py.rstrip (Py.rstrip s) = Py.rstrip s.
Proof.
  induction s as [|c r IH]; simpl; [done|].
  destruct (Py.rstrip r) as [|d r'] eqn:Hr.
  - destruct (Py.is_space c) eqn:Hc; simpl; by rewrite ?Hc.
  - change (Py.rstrip (String c (String d r'))) with
      (match Py.rstrip (String d r') with
       | EmptyString => if Py.is_space c then EmptyString else String c EmptyString
       | r'' => String c r''
       end).
    by rewrite IH.
Qed.

Lemma strip_idemp s : Py.strip (Py.strip s) = Py.strip s.
Proof.
  unfold Py.strip.
  rewrite (lstrip_of_clean (Py.rstrip _)) by apply rstrip_clean, lstrip_clean.
  apply rstrip_idemp.
Qed.

(** [int] strips its argument itself, so stripping first changes nothing. *)
Lemma int_strip s : Py.int (Py.strip s) = Py.int s.
Proof. unfold Py.int. by rewrite strip_idemp. Qed.

End strings.

(** ** Chapter selector *)

Section chapters.
Implicit Types (df : table) (s : string) (sel : list Z).

Lemma elem_of_unique_from seen l x :
  x ∈ Py.unique_from seen l ↔ x ∈ l ∧ x ∉ seen.
Proof.
  revert seen. induction l as [|y l IH]; intros seen; simpl.
  - set_solver.
  - case_decide; rewrite ?elem_of_cons, IH; [set_solver|].
    destruct (decide (x = y)); set_solver.
Qed.

Lemma NoDup_unique_from seen l : NoDup (Py.unique_from seen l).
Proof.
  revert seen. induction l as [|y l IH]; intros seen; simpl; [constructor|].
  case_decide; [done|]. constructor; [|done].
  rewrite elem_of_unique_from. set_solver.
Qed.

Lemma elem_of_all_available df ch :
  ch ∈ all_available_chapters df ↔ ∃ q, q ∈ df ∧ Chapter q = ch.
Proof.
  unfold all_available_chapters, Py.sorted, Py.unique.
  rewrite merge_sort_Permutation, elem_of_unique_from, list_elem_of_fmap.
  set_solver.
Qed.

Lemma NoDup_all_available df : NoDup (all_available_chapters df).
Proof.
  unfold all_available_chapters, Py.sorted, Py.unique.
  rewrite merge_sort_Permutation. apply NoDup_unique_from.
Qed.


(** The three outcomes of the range branch. *)
Lemma parse_range df s :
  s ≠ "all" → Py.contains "-" s = true →
  (∃ a b start end_,
      Py.split "-" s = [a; b] ∧ Py.int a = Some start ∧ Py.int b = Some end_ ∧
      parse_chapter_input df s =
        (filter (λ ch, start ≤ ch ≤ end_) (all_available_chapters df), [])) ∨
  ((¬ ∃ a b, Py.split "-" s = [a; b] ∧ is_Some (Py.int a) ∧ is_Some (Py.int b)) ∧
   parse_chapter_input df s = ([], [msg_bad_range])).
Proof.
  intros Hall Hdash. unfold parse_chapter_input.
  rewrite decide_False, Hdash by done.
  destruct (Py.split "-" s) as [|a [|b [|c l]]] eqn:Hs; simpl;
    try (right; split; [intros (?&?&?&?&?); congruence | done]).
  - destruct (Py.int a) as [start|] eqn:Ha; simpl;
      [|right; split; [|done]; intros (?&?&[=]&[? ?]&?); congruence].
    right. split; [intros (?&?&?&?&?); congruence | done].
  - destruct (Py.int a) as [start|] eqn:Ha, (Py.int b) as [end_|] eqn:Hb; simpl.
    + left. by exists a, b, start, end_.
    + right. split; [|done]. intros (?&?&[=]&?&[? ?]); congruence.
    + right. split; [|done]. intros (?&?&[=]&[? ?]&?); congruence.
    + right. split; [|done]. intros (?&?&[=]&[? ?]&?); congruence.
  - right. split; [intros (?&?&?&?&?); congruence|].
    by destruct (Py.int a), (Py.int b).
Qed.

(** The two outcomes of the comma-list branch that carry no message. *)
Lemma parse_list_accepted df s sel :
  s ≠ "all" → Py.contains "-" s = false →
  parse_chapter_input df s = (sel, []) →
  mapM (λ ch, Py.int (Py.strip ch)) (Py.split "," s) = Some sel ∧
  Forall (λ ch, ch ∈ all_available_chapters df) sel.
Proof.
  intros Hall Hdash. unfold parse_chapter_input.
  rewrite decide_False, Hdash by done.
  destruct (mapM _ _) as [l|]; [|done].
  destruct (forallb _ l) eqn:Hl; intros [=]; subst. split; [done|].
  apply Is_true_true_2, forallb_True in Hl.
  eapply Forall_impl; [done|]. intros x Hx. by apply bool_decide_unpack in Hx.
Qed.

End chapters.

(** ** Properties of the chapter selector *)


(** ["all"] on a table without rows is accepted with an empty selection. *)
Example all_on_empty_table : parse_chapter_input [] "all" = ([], []).
Proof. by vm_compute. Qed.



(** C5, as stated, fails: a bound with a minus sign is an integer for
    [int], but the expression is cut at every ["-"], so ["-1-2"] is
    rejected although chapters 1 and 2 lie in [-1, 2]. *)
Lemma negative_bound_rejected :
  Py.int "-1" = Some (-1) ∧ Py.int "2" = Some 2 ∧
  filter (λ ch, -1 ≤ ch ≤ 2) (all_available_chapters demo) = [1; 2] ∧
  parse_chapter_input demo ("-1" +:+ "-" +:+ "2") = ([], [msg_bad_range]).
Proof. by vm_compute. Qed.

(** The list returned for a range that matches nothing is the list returned
    for a parse error; only the message tells them apart, and "Confirm
    Chapters" leaves the stage unchanged for both, silently for the first. *)
Example empty_range_returns_like_error :
  (parse_chapter_input demo "7-9").1 = (parse_chapter_input demo "x-9").1 ∧
  (parse_chapter_input demo "7-9").2 = [] ∧
  (parse_chapter_input demo "x-9").2 = [msg_bad_range] ∧
  sess (press (ConfirmChapters "7-9") (boot w0).2) = sess (boot w0).2 ∧
  page (press (ConfirmChapters "7-9") (boot w0).2) = [].
Proof. by vm_compute. Qed.

(** C5 (amended): for a range whose two bounds parse as integers and hold
    no ["-"] themselves, the selector returns exactly the chapters of the
    table in the closed interval, with no error message, also when that list
    is empty; and an expression with a ["-"] gets an error message exactly
    when cutting it at ["-"] does not give two parts that are both integers,
    and then the empty list with the range error and nothing else. *)
Theorem range_selection (df : table) (a b : string) (start end_ : Z) :
  Py.int a = Some start → Py.int b = Some end_ →
  Py.contains "-" a = false → Py.contains "-" b = false →
  parse_chapter_input df (a +:+ "-" +:+ b) =
    (filter (λ ch, start ≤ ch ≤ end_) (all_available_chapters df), []) ∧
  (∀ ch, ch ∈ (parse_chapter_input df (a +:+ "-" +:+ b)).1 ↔
         ch ∈ all_available_chapters df ∧ start ≤ ch ≤ end_) ∧
  (∀ s, s ≠ "all" → Py.contains "-" s = true →
        ((parse_chapter_input df s).2 ≠ [] ↔
         ¬ ∃ a' b', Py.split "-" s = [a'; b'] ∧
                    is_Some (Py.int a') ∧ is_Some (Py.int b')) ∧
        (parse_chapter_input df s = ([], [msg_bad_range]) ↔
         ¬ ∃ a' b', Py.split "-" s = [a'; b'] ∧
                    is_Some (Py.int a') ∧ is_Some (Py.int b'))).
Proof.
  intros Ha Hb Hna Hnb.
  assert (parse_chapter_input df (a +:+ "-" +:+ b) =
            (filter (λ ch, start ≤ ch ≤ end_) (all_available_chapters df), [])) as Hp.
  { assert (a +:+ "-" +:+ b ≠ "all") as Hall.
    { intros Heq. pose proof (contains_sep "-" a b) as Hc.
      change (String "-" b) with ("-" +:+ b) in Hc. by rewrite Heq in Hc. }
    destruct (parse_range df _ Hall (contains_sep "-" a b))
      as [(a' & b' & x & y & Hs & Ha' & Hb' & Hr)|[Hno _]].
    - change ("-" +:+ b) with (String "-" b) in *.
      rewrite split_two in Hs by done. injection Hs as <- <-.
      rewrite Hr. by simplify_eq.
    - exfalso. apply Hno. exists a, b.
      change ("-" +:+ b) with (String "-" b). by rewrite split_two, Ha, Hb. }
  split_and!; [done| |].
  - intros ch. rewrite Hp. simpl. rewrite list_elem_of_filter. tauto.
  - intros s Hall Hdash.
    destruct (parse_range df s Hall Hdash)
      as [(a' & b' & x & y & Hs & Ha' & Hb' & Hr)|[Hno Hr]]; rewrite Hr; simpl.
    + assert (∃ a' b', Py.split "-" s = [a'; b'] ∧
                       is_Some (Py.int a') ∧ is_Some (Py.int b')) as Hyes
        by (exists a', b'; rewrite Ha', Hb'; eauto).
      split; split; try done; intros Hn; by destruct (Hn Hyes).
    + split; split; done.
Qed.

Lemma range_selection_witness :
  parse_chapter_input demo (" 7" +:+ "-" +:+ "9") =
    (filter (λ ch, 7 ≤ ch ≤ 9) (all_available_chapters demo), []) ∧
  (∀ ch, ch ∈ (parse_chapter_input demo (" 7" +:+ "-" +:+ "9")).1 ↔
         ch ∈ all_available_chapters demo ∧ 7 ≤ ch ≤ 9) ∧
  (∀ s, s ≠ "all" → Py.contains "-" s = true →
        ((parse_chapter_input demo s).2 ≠ [] ↔
         ¬ ∃ a' b', Py.split "-" s = [a'; b'] ∧
                    is_Some (Py.int a') ∧ is_Some (Py.int b')) ∧
        (parse_chapter_input demo s = ([], [msg_bad_range]) ↔
         ¬ ∃ a' b', Py.split "-" s = [a'; b'] ∧
                    is_Some (Py.int a') ∧ is_Some (Py.int b'))).
Proof. apply (range_selection demo " 7" "9" 7 9); reflexivity. Defined.

(** The range error on three expressions that do not cut into two
    integers, and none on one that does. *)
Example range_errors :
  parse_chapter_input demo "x-9" = ([], [msg_bad_range]) ∧
  parse_chapter_input demo "-1-2" = ([], [msg_bad_range]) ∧
  parse_chapter_input demo "1-2-3" = ([], [msg_bad_range]) ∧
  parse_chapter_input demo "2-3" = ([2; 3], []).
Proof. by vm_compute. Qed.

(** ** Question filter *)

Section pools.
Implicit Types (df : table) (chs : list Z) (att inc : gmap nat Z) (f : frame).

Lemma index_rows df : index (rows df) = seq 0 (length df).
Proof.
  unfold index, rows. rewrite fmap_imap.
  rewrite (imap_ext _ (λ i _, id i)) by done.
  rewrite imap_seq_0. apply list_fmap_id.
Qed.

Lemma NoDup_index_sublist f g : g `sublist_of` f → NoDup (index f) → NoDup (index g).
Proof.
  intros Hs Hf. eapply sublist_NoDup; [done|]. unfold index. by apply fmap_sublist.
Qed.

Lemma filtered_df_sublist df chs : filtered_df df chs `sublist_of` rows df.
Proof. apply sublist_filter. Qed.

Lemma pool_sublist df chs m att inc :
  get_questions_for_mode_streamlit df chs m att inc `sublist_of` filtered_df df chs.
Proof. destruct m; simpl; [done|apply sublist_filter..]. Qed.

(** Row labels are never repeated in a pool. *)
Lemma NoDup_index_pool df chs m att inc :
  NoDup (index (get_questions_for_mode_streamlit df chs m att inc)).
Proof.
  eapply NoDup_index_sublist; [apply pool_sublist|].
  eapply NoDup_index_sublist; [apply filtered_df_sublist|].
  rewrite index_rows. apply NoDup_seq.
Qed.

Lemma elem_of_new_q_indices att idx :
  idx ∈ new_q_indices att ↔ att !! idx = Some 0.
Proof.
  unfold new_q_indices. rewrite list_elem_of_fmap. split.
  - intros ([i c] & -> & [Hc Hin]%list_elem_of_filter). simpl in *. subst c.
    by apply elem_of_map_to_list.
  - intros H. exists (idx, 0). split; [done|].
    apply list_elem_of_filter. split; [done|]. by apply elem_of_map_to_list.
Qed.

Lemma elem_of_incorrect_q_indices inc idx :
  idx ∈ incorrect_q_indices inc ↔ get0 inc idx > 0.
Proof.
  unfold incorrect_q_indices, get0. rewrite list_elem_of_fmap. split.
  - intros ([i c] & -> & [Hc Hin]%list_elem_of_filter). simpl in *.
    apply elem_of_map_to_list in Hin. by rewrite Hin.
  - destruct (inc !! idx) as [c|] eqn:Hl; simpl; [|lia]. intros Hc.
    exists (idx, c). split; [done|].
    apply list_elem_of_filter. split; [done|]. by apply elem_of_map_to_list.
Qed.

(** A dict built from the table has an entry for every row label, and
    there [counts.get(idx, 0)] reads the entry. *)
Lemma to_dict_lookup (col : question → Z) df idx :
  to_dict col df !! idx = col <$> df !! idx.
Proof. unfold to_dict. by rewrite lookup_map_seq_0, list_lookup_fmap. Qed.

Lemma elem_of_rows df r : r ∈ rows df ↔ df !! r.1 = Some r.2.
Proof.
  unfold rows. rewrite list_elem_of_lookup. split.
  - intros [i Hi]. rewrite list_lookup_imap in Hi.
    apply fmap_Some in Hi as (q & Hq & ->). exact Hq.
  - intros Hr. exists r.1. rewrite list_lookup_imap, Hr. by destruct r.
Qed.

Lemma to_dict_get0 (col : question → Z) df r :
  r ∈ rows df → to_dict col df !! r.1 = Some (get0 (to_dict col df) r.1).
Proof.
  intros Hr%elem_of_rows. unfold get0. by rewrite to_dict_lookup, Hr.
Qed.

End pools.

(** C6: whatever the table, the chapters and the counters, the pool of mode
    [new] is the [normal] pool filtered by "the attempted counter of the row
    is 0", the pool of mode [incorrect] is the [normal] pool filtered by "the
    incorrect counter of the row is above 0", and both are sub-lists of the
    [normal] pool. *)
Theorem pools_by_mode (df : table) (chs : list Z) (att inc : gmap nat Z) :
  let pool m := get_questions_for_mode_streamlit df chs m att inc in
  pool new = filter (λ r : nat * question, att !! r.1 = Some 0) (pool normal) ∧
  pool incorrect = filter (λ r : nat * question, get0 inc r.1 > 0) (pool normal) ∧
  (∀ r, r ∈ pool new ↔ r ∈ pool normal ∧ att !! r.1 = Some 0) ∧
  (∀ r, r ∈ pool incorrect ↔
        r ∈ pool normal ∧ ∃ c, inc !! r.1 = Some c ∧ c > 0) ∧
  pool new `sublist_of` pool normal ∧
  pool incorrect `sublist_of` pool normal.
Proof.
  simpl. split_and!.
  - apply list_filter_iff. intros r. apply elem_of_new_q_indices.
  - apply list_filter_iff. intros r. apply elem_of_incorrect_q_indices.
  - intros r. unfold index_isin.
    rewrite list_elem_of_filter, elem_of_new_q_indices. tauto.
  - intros r. unfold index_isin.
    rewrite list_elem_of_filter, elem_of_incorrect_q_indices.
    unfold get0. destruct (inc !! r.1) as [c|]; simpl.
    + split; [intros [? ?]; eauto|]. by intros (? & ? & [= <-] & ?).
    + split; [lia|]. by intros (? & ? & [=] & ?).
  - apply sublist_filter.
  - apply sublist_filter.
Qed.

(** ** Sampling *)

Section sampling.
Context {A : Type}.
Implicit Types (pool : list A) (draws : list nat).

Lemma sample_submseteq draws pool n : Py.sample draws pool n ⊆+ pool.
Proof.
  revert draws pool. induction n as [|n IH]; intros draws pool; simpl.
  - apply submseteq_nil_l.
  - destruct (pool !! _) as [x|] eqn:Hx; [|apply submseteq_nil_l].
    trans (x :: delete (hd 0 draws mod length pool)%nat pool).
    + apply submseteq_skip, IH.
    + by rewrite <- delete_Permutation.
Qed.

Lemma length_sample draws pool n :
  (n ≤ length pool)%nat → length (Py.sample draws pool n) = n.
Proof.
  revert draws pool. induction n as [|n IH]; intros draws pool Hn; simpl; [done|].
  assert (hd 0 draws mod length pool < length pool)%nat as Hk
    by (apply Nat.mod_upper_bound; lia).
  destruct (lookup_lt_is_Some_2 pool _ Hk) as [x Hx]. rewrite Hx. simpl.
  f_equal. apply IH. rewrite length_delete by eauto. lia.
Qed.

Lemma NoDup_submseteq_fmap {B} (f : A → B) (l k : list A) :
  l ⊆+ k → NoDup (f <$> k) → NoDup (f <$> l).
Proof.
  intros (r & Hr)%submseteq_Permutation. rewrite Hr, fmap_app.
  by intros [? _]%NoDup_app.
Qed.

End sampling.

(** ** Starting a quiz *)

Lemma start_quiz_run (pool : frame) (n : Z) (a : app) :
  1 ≤ n ≤ Z.of_nat (length pool) →
  ∃ w', start_quiz pool n a =
    (Rerun,
     {| sess :=
          set_quiz_stage quiz_in_progress
            (set_correct_answers_count 0
               (set_current_question_idx 0%nat
                  (set_total_questions_asked (length (drawn (wld a) pool n))
                     (set_quiz_questions (drawn (wld a) pool n)
                        (set_num_questions_to_ask n (sess a))))));
        wld := w'; page := page a |}) ∧
    (n = Z.of_nat (length pool) → w' = wld a).
Proof.
  intros Hn. unfold start_quiz, drawn.
  rewrite decide_True by lia.
  destruct (decide (n < Z.of_nat (length pool))) as [Hlt|Hge].
  - eexists. split; [reflexivity|]. lia.
  - eexists. split; [reflexivity|]. done.
Qed.

Lemma drawn_spec (w : world) (pool : frame) (n : Z) :
  1 ≤ n ≤ Z.of_nat (length pool) →
  Z.of_nat (length (drawn w pool n)) = n ∧
  drawn w pool n ⊆+ pool ∧
  (n = Z.of_nat (length pool) → drawn w pool n = pool).
Proof.
  intros Hn. unfold drawn. case_decide.
  - rewrite length_sample by lia. split_and!; [lia|apply sample_submseteq|lia].
  - split_and!; [lia|done|done].
Qed.

Lemma bind_eq {A B} (m : M A) (k : A → M B) (a : app) :
  bind m k a =
  match m a with
  | (Normal x, a') => k x a'
  | (Raise e, a') => (Raise e, a')
  | (Rerun, a') => (Rerun, a')
  | (Stop, a') => (Stop, a')
  end.
Proof. reflexivity. Qed.

Lemma run_eq (budget : nat) (ev : option event) (a : app) :
  run (S budget) ev a =
  match script ev (clear_page a) with
  | (Rerun, a') => run budget None a'
  | (Raise e, a') =>
      {| sess := sess a'; wld := wld a';
         page := page a' ++ [StException "uncaught exception"] |}
  | (_, a') => a'
  end.
Proof. reflexivity. Qed.

(** The finished stage never fails before its heading: with nothing asked
    the guard gives the percentage and the division is not reached, and
    with a positive total the division is defined. *)
Lemma show_score_run (a : app) :
  show_score a =
    (Normal tt,
     {| sess := sess a; wld := wld a; page := page a ++ [score_banner (sess a)] |}).
Proof.
  unfold show_score, score_banner, percentage, true_div.
  rewrite bind_eq. simpl.
  destruct (decide (total_questions_asked (sess a) = 0%nat)) as [Ht|Ht]; [done|].
  rewrite bind_eq, bind_eq. by rewrite decide_False by lia.
Qed.

Lemma script_finished (ev : option event) (a : app) :
  quiz_stage (sess a) = quiz_finished →
  script ev a =
    match ev with
    | Some StartNewQuiz =>
        start_new_quiz
          {| sess := sess a; wld := wld a; page := page a ++ [score_banner (sess a)] |}
    | _ =>
        (Normal tt,
         {| sess := sess a; wld := wld a; page := page a ++ [score_banner (sess a)] |})
    end.
Proof.
  intros Hstage. unfold script. rewrite bind_eq. simpl.
  rewrite Hstage, bind_eq, show_score_run. by destruct ev as [[]|].
Qed.

Lemma quiz_pool_df_run (a : app) (m : mode) :
  practice_mode (sess a) = Some m →
  quiz_pool_df a =
    (Normal (get_questions_for_mode_streamlit (data_df (sess a))
               (selected_chapters (sess a)) m
               (attempted_counts (sess a)) (incorrect_attempt_counts (sess a))), a).
Proof. intros H. unfold quiz_pool_df. rewrite bind_eq. simpl. by rewrite H. Qed.

Lemma script_start_quiz (a : app) (m : mode) (n : Z) :
  quiz_stage (sess a) = num_questions_selection →
  practice_mode (sess a) = Some m →
  let pool := get_questions_for_mode_streamlit (data_df (sess a))
                (selected_chapters (sess a)) m
                (attempted_counts (sess a)) (incorrect_attempt_counts (sess a)) in
  pool ≠ [] →
  script (Some (StartQuiz n)) a =
    start_quiz pool
      (st_number_input 1 (Z.of_nat (length pool))
         (Z.min 10 (Z.of_nat (length pool))) n) a.
Proof.
  intros Hstage Hmode pool Hne. unfold script. rewrite bind_eq. simpl.
  rewrite Hstage, bind_eq, (quiz_pool_df_run a m Hmode). fold pool.
  destruct pool; [done|reflexivity].
Qed.

(** The number input hands over an entry within its bounds as it is, and
    a number within its bounds whatever the entry. *)
Lemma st_number_input_accepts (lo hi v n : Z) :
  lo ≤ n ≤ hi → st_number_input lo hi v n = n.
Proof. intros H. unfold st_number_input. by rewrite decide_True. Qed.

Lemma st_number_input_bounds (hi n : Z) :
  1 ≤ hi → 1 ≤ st_number_input 1 hi (Z.min 10 hi) n ≤ hi.
Proof. intros H. unfold st_number_input. case_decide; lia. Qed.

(** A run of the in-progress stage with no button pressed, before the end
    of the quiz, only shows the question. *)
Lemma script_in_progress_idle (a : app) (x : nat * question) :
  quiz_stage (sess a) = quiz_in_progress →
  (current_question_idx (sess a) < total_questions_asked (sess a))%nat →
  quiz_questions (sess a) !! current_question_idx (sess a) = Some x →
  script None a = (Normal tt, a).
Proof.
  intros Hstage Hlt Hx. unfold script. rewrite bind_eq. simpl.
  rewrite Hstage, decide_True, Hx by done. done.
Qed.

(** C3: in the count-selection stage, with a pool of M rows and a requested
    count N with 1 <= N <= M, pressing "Start Quiz" leaves N questions in
    the session, with pairwise distinct row labels, all of them rows of the
    pool; when N = M they are the pool itself, in its order, and the random
    generator is not used. *)
Theorem start_quiz_sample (a : app) (m : mode) (n : Z) :
  quiz_stage (sess a) = num_questions_selection →
  practice_mode (sess a) = Some m →
  let pool := get_questions_for_mode_streamlit (data_df (sess a))
                (selected_chapters (sess a)) m
                (attempted_counts (sess a)) (incorrect_attempt_counts (sess a)) in
  1 ≤ n ≤ Z.of_nat (length pool) →
  let a' := press (StartQuiz n) a in
  let qs := quiz_questions (sess a') in
  quiz_stage (sess a') = quiz_in_progress ∧
  Z.of_nat (length qs) = n ∧
  NoDup (index qs) ∧
  (∀ r, r ∈ qs → r ∈ pool) ∧
  (n = Z.of_nat (length pool) → qs = pool ∧ rng (wld a') = rng (wld a)) ∧
  total_questions_asked (sess a') = length qs ∧
  current_question_idx (sess a') = 0%nat ∧
  correct_answers_count (sess a') = 0.
Proof.
  intros Hstage Hmode pool Hn.
  destruct (drawn_spec (wld a) pool n Hn) as (Hlen & Hsub & Hall).
  destruct (start_quiz_run pool n (clear_page a) Hn) as (w' & Hrun & Hw).
  assert (∃ r rest, pool = r :: rest) as (r0 & rest & Hpool).
  { destruct pool; simpl in Hn; [lia|eauto]. }
  assert (∃ x, drawn (wld a) pool n !! 0%nat = Some x) as [x Hx].
  { apply lookup_lt_is_Some_2. lia. }
  assert (press (StartQuiz n) a =
            {| sess := set_quiz_stage quiz_in_progress
                 (set_correct_answers_count 0
                    (set_current_question_idx 0%nat
                       (set_total_questions_asked (length (drawn (wld a) pool n))
                          (set_quiz_questions (drawn (wld a) pool n)
                             (set_num_questions_to_ask n (sess a))))));
               wld := w'; page := [] |}) as Hpress.
  { unfold press. rewrite run_eq.
    rewrite (script_start_quiz (clear_page a) m n Hstage Hmode)
      by (simpl; fold pool; by rewrite Hpool).
    simpl (sess (clear_page a)). fold pool.
    rewrite st_number_input_accepts by done. rewrite Hrun, run_eq.
    erewrite script_in_progress_idle; [done|done|simpl; lia|exact Hx]. }
  intros a' qs. subst a' qs. rewrite Hpress. simpl.
  split_and!; try done.
  - eapply NoDup_submseteq_fmap; [exact Hsub|]. apply NoDup_index_pool.
  - intros r Hr. by eapply elem_of_submseteq.
  - intros Hnm. split; [by apply Hall|]. by rewrite (Hw Hnm).
Qed.

(** ** The write operation *)

Section writes.
Implicit Types (a : app) (row : nat) (col : string) (v : Z).

(** All the outcomes of one call. *)
Lemma update_gsheet_cell_eq row col v a :
  update_gsheet_cell row col v a =
  let f := hd Healthy (faults (wld a)) in
  let w1 := entered row col v (wld a) in
  if decide (f = AuthFails) then
    (Normal tt, {| sess := sess a; wld := w1; page := page a ++ [msg_auth] |})
  else if decide (f = HeaderReadFails) then
    (Raise APIError, {| sess := sess a; wld := w1; page := page a |})
  else
    match headers_index col (headers (wld a)) with
    | None =>
        (Normal tt, {| sess := sess a; wld := w1; page := page a ++ [msg_column col] |})
    | Some i =>
        if decide (f = UpdateFails) then
          (Normal tt, {| sess := sess a; wld := w1;
                         page := page a ++ [msg_update (row + 2) (i + 1)] |})
        else
          (Normal tt,
           {| sess := sess a;
              wld := worksheet_update_cell (row + 2) (i + 1) v w1;
              page := page a |})
    end.
Proof.
  unfold update_gsheet_cell, next_fault, entered. monad_unfold. simpl.
  destruct (decide (hd Healthy (faults (wld a)) = AuthFails)); [done|].
  destruct (decide (hd Healthy (faults (wld a)) = HeaderReadFails)); simpl; [done|].
  destruct (headers_index col (headers (wld a))); [|done].
  by destruct (decide (hd Healthy (faults (wld a)) = UpdateFails)).
Qed.

Lemma worksheet_update_cell_keeps r c v w :
  requests (worksheet_update_cell r c v w) = requests w ∧
  faults (worksheet_update_cell r c v w) = faults w ∧
  rng (worksheet_update_cell r c v w) = rng w ∧
  cache_data (worksheet_update_cell r c v w) = cache_data w.
Proof.
  unfold worksheet_update_cell. destruct (headers w !! _); [|done].
  by case_decide.
Qed.

(** The write operation has no access to the session: whatever happens
    to the call, the session is the one it started from. *)
Lemma update_gsheet_cell_session row col v a :
  sess (update_gsheet_cell row col v a).2 = sess a.
Proof.
  rewrite update_gsheet_cell_eq. cbv zeta.
  destruct (decide (_ = AuthFails)); [done|].
  destruct (decide (_ = HeaderReadFails)); [done|].
  destruct (headers_index _ _); [|done].
  by destruct (decide (_ = UpdateFails)).
Qed.

(** Unless reading the header row fails, the call returns. *)
Lemma update_gsheet_cell_returns row col v a :
  hd Healthy (faults (wld a)) ≠ HeaderReadFails →
  ∃ w' msgs,
    update_gsheet_cell row col v a =
      (Normal tt, {| sess := sess a; wld := w'; page := page a ++ msgs |}) ∧
    requests w' = (requests (wld a) ++ [(row, col, v)])%list ∧
    faults w' = tl (faults (wld a)).
Proof.
  intros Hf. rewrite update_gsheet_cell_eq. cbv zeta.
  destruct (decide (_ = AuthFails)); [by eexists _, [_]|].
  rewrite decide_False by done.
  destruct (headers_index _ _) as [i|]; [|by eexists _, [_]].
  destruct (decide (_ = UpdateFails)); [by eexists _, [_]|].
  eexists _, []. rewrite app_nil_r. split; [done|].
  destruct (worksheet_update_cell_keeps (row + 2) (i + 1) v (entered row col v (wld a)))
    as (-> & -> & _). done.
Qed.

(** The three failures that are caught: each one is reported with
    [st.error] and the call returns. *)
Lemma update_gsheet_cell_reports row col v a :
  let f := hd Healthy (faults (wld a)) in
  f = AuthFails ∨
  (f ≠ HeaderReadFails ∧ headers_index col (headers (wld a)) = None) ∨
  (f = UpdateFails ∧ is_Some (headers_index col (headers (wld a)))) →
  ∃ m, is_error m = true ∧
    update_gsheet_cell row col v a =
      (Normal tt, {| sess := sess a; wld := entered row col v (wld a);
                     page := page a ++ [m] |}).
Proof.
  cbv zeta. intros H. rewrite update_gsheet_cell_eq. cbv zeta.
  destruct H as [H|[[H1 H2]|[H [i Hi]]]].
  - rewrite H. by exists msg_auth.
  - destruct (decide (_ = AuthFails)); [by exists msg_auth|].
    rewrite decide_False, H2 by done. by exists (msg_column col).
  - rewrite H, Hi. by eexists (msg_update _ _).
Qed.

End writes.

(** ** Grading *)

Lemma lower_key_text k : Py.lower (key_text k) = key_text k.
Proof. by destruct k. Qed.

Lemma N_of_lower_char (c : ascii) :
  N_of_ascii (Py.lower_char c) =
  (if Py.is_upper c then N_of_ascii c + 32 else N_of_ascii c)%N.
Proof.
  unfold Py.lower_char. destruct (Py.is_upper c) eqn:Hu; [|done].
  apply N_ascii_embedding. unfold Py.is_upper in Hu.
  apply andb_true_iff in Hu as [_ Hu%N.leb_le]. lia.
Qed.

(** Two characters have the same small form exactly when they are equal up
    to case. *)
Lemma same_char_nocase_lower (c d : ascii) :
  same_char_nocase c d = true ↔ Py.lower_char c = Py.lower_char d.
Proof.
  assert (Py.lower_char c = Py.lower_char d ↔
          N_of_ascii (Py.lower_char c) = N_of_ascii (Py.lower_char d)) as ->.
  { split; [by intros ->|]. intros H.
    rewrite <- (ascii_N_embedding (Py.lower_char c)), H. apply ascii_N_embedding. }
  rewrite !N_of_lower_char. unfold same_char_nocase, Py.is_upper. cbv zeta.
  generalize (N_of_ascii c) (N_of_ascii d). intros m n.
  destruct (N.leb_spec 65 m), (N.leb_spec m 90), (N.leb_spec 65 n), (N.leb_spec n 90),
    (N.eqb_spec m n), (N.eqb_spec n (m + 32)), (N.eqb_spec m (n + 32));
    simpl; split; intros; first [done | lia].
Qed.

Lemma eq_nocase_lower (s t : string) :
  eq_nocase s t = true ↔ Py.lower s = Py.lower t.
Proof.
  revert t. induction s as [|c s IH]; intros [|d t]; simpl; try done.
  rewrite andb_true_iff, same_char_nocase_lower, IH. split.
  - by intros [-> ->].
  - by intros [= -> ->].
Qed.

(** The radio keys are lower case, so the handler's test is the comparison
    without case. *)
Lemma is_correct_same_label k q : is_correct k q ↔ same_label k q.
Proof. unfold is_correct, same_label. by rewrite eq_nocase_lower, lower_key_text. Qed.

Lemma submit_answer_run (a : app) (k : option_key) (idx : nat) (q : question) :
  quiz_questions (sess a) !! current_question_idx (sess a) = Some (idx, q) →
  is_Some (attempted_counts (sess a) !! idx) →
  (¬ is_correct k q → is_Some (incorrect_attempt_counts (sess a) !! idx)) →
  HeaderReadFails ∉ take 2 (faults (wld a)) →
  ∃ w' msgs,
    submit_answer k a =
      (Normal tt, {| sess := graded k idx q (sess a); wld := w';
                     page := (page a ++ msgs)%list |}) ∧
    requests w' =
      (requests (wld a) ++
         [(idx, "Attempted", get0 (attempted_counts (sess a)) idx + 1);
          (idx, "Incorrect attempt", incorrect_written k idx q (sess a))])%list.
Proof.
  intros Hq [att Hatt] Hinc Hf.
  assert (hd Healthy (faults (wld a)) ≠ HeaderReadFails ∧
          hd Healthy (tl (faults (wld a))) ≠ HeaderReadFails) as [Hf1 Hf2].
  { destruct (faults (wld a)) as [|f1 [|f2 fs]]; simpl in *; set_solver. }
  unfold submit_answer, graded, incorrect_written, is_correct, get0, increment,
    getitem in *.
  rewrite Hatt. simpl.
  rewrite bind_eq. simpl. rewrite Hq.
  monad_unfold. simpl. rewrite Hatt. simpl. rewrite lookup_insert_eq. simpl.
  match goal with |- context [update_gsheet_cell ?r ?c ?v ?st] =>
    destruct (update_gsheet_cell_returns r c v st Hf1) as (w1 & m1 & -> & Hr1 & Hw1)
  end.
  destruct (decide (key_text k = Py.lower (Correct_Answer q))) as [Heq|Hne].
  - simpl. rewrite lookup_insert_eq. simpl.
    match goal with |- context [update_gsheet_cell ?r ?c ?v ?st] =>
      destruct (update_gsheet_cell_returns r c v st) as (w2 & m2 & -> & Hr2 & Hw2)
    end.
    { simpl. by rewrite Hw1. }
    simpl in *. eexists w2, _. split.
    + rewrite <- !(assoc_L (++)). reflexivity.
    + rewrite Hr2, Hr1. by rewrite <- (assoc_L (++)).
  - destruct (Hinc Hne) as [inc Hi].
    simpl. rewrite Hi. simpl. rewrite lookup_insert_eq. simpl.
    match goal with |- context [update_gsheet_cell ?r ?c ?v ?st] =>
      destruct (update_gsheet_cell_returns r c v st) as (w2 & m2 & -> & Hr2 & Hw2)
    end.
    { simpl. by rewrite Hw1. }
    simpl in *. eexists w2, _. split.
    + rewrite <- !(assoc_L (++)). reflexivity.
    + rewrite Hr2, Hr1. by rewrite <- (assoc_L (++)).
Qed.

Lemma script_submit (a : app) (k : option_key) (x : nat * question) :
  quiz_stage (sess a) = quiz_in_progress →
  (current_question_idx (sess a) < total_questions_asked (sess a))%nat →
  quiz_questions (sess a) !! current_question_idx (sess a) = Some x →
  script (Some (SubmitAnswer k)) a = submit_answer k a.
Proof.
  intros Hstage Hlt Hx. unfold script. rewrite bind_eq. simpl.
  rewrite Hstage, decide_True, Hx by done. done.
Qed.

(** Pressing "Submit Answer" on the question at the cursor, when both
    counters have an entry for it and no header read fails. *)
Lemma press_submit (a : app) (k : option_key) (idx : nat) (q : question) :
  quiz_stage (sess a) = quiz_in_progress →
  (current_question_idx (sess a) < total_questions_asked (sess a))%nat →
  quiz_questions (sess a) !! current_question_idx (sess a) = Some (idx, q) →
  is_Some (attempted_counts (sess a) !! idx) →
  (¬ is_correct k q → is_Some (incorrect_attempt_counts (sess a) !! idx)) →
  HeaderReadFails ∉ take 2 (faults (wld a)) →
  sess (press (SubmitAnswer k) a) = graded k idx q (sess a) ∧
  requests (wld (press (SubmitAnswer k) a)) =
    (requests (wld a) ++
       [(idx, "Attempted", get0 (attempted_counts (sess a)) idx + 1);
        (idx, "Incorrect attempt", incorrect_written k idx q (sess a))])%list.
Proof.
  intros Hstage Hlt Hq Hatt Hinc Hf. unfold press. rewrite run_eq.
  rewrite (script_submit _ k (idx, q)) by done.
  destruct (submit_answer_run (clear_page a) k idx q) as (w' & msgs & -> & Hr); done.
Qed.

(** The comparison of the labels is the one without case, and nothing
    more: a capital and a small letter match, a blank does not. *)
Example labels_compared_without_case :
  same_label key_d (mkq 1 "D" 0 0) ∧ is_correct key_d (mkq 1 "D" 0 0) ∧
  same_label key_d (mkq 1 "d" 0 0) ∧ is_correct key_d (mkq 1 "d" 0 0) ∧
  ¬ same_label key_d (mkq 1 "A" 0 0) ∧ ¬ is_correct key_d (mkq 1 "A" 0 0) ∧
  ¬ same_label key_d (mkq 1 "D " 0 0) ∧ ¬ is_correct key_d (mkq 1 "D " 0 0).
Proof. by vm_compute. Qed.

(** C1, as stated, fails: the loader keeps a negative cell of the incorrect
    column, so in the reachable state [n3] the incorrect counter of the
    question is -2, and grading the correct answer takes it to 0: the
    counter is increased. *)
Lemma correct_answer_raises_negative_counter :
  reachable n3 ∧
  quiz_stage (sess n3) = quiz_in_progress ∧
  quiz_questions (sess n3) !! current_question_idx (sess n3) =
    Some (0%nat, mkq 1 "D" 0 (-2)) ∧
  same_label key_d (mkq 1 "D" 0 (-2)) ∧
  incorrect_attempt_counts (sess n3) !! 0%nat = Some (-2) ∧
  incorrect_attempt_counts (sess (press (SubmitAnswer key_d) n3)) !! 0%nat = Some 0 ∧
  -2 < 0.
Proof.
  split; [|by vm_compute].
  unfold n3, n2, n1. do 3 apply reach_press. apply reach_boot. by vm_compute.
Qed.

(** C1 (amended): a submission on the question at the cursor that is graded
    adds exactly 1 to the attempted counter of that question; if the chosen
    label equals the stored one without regard to case, the score grows by
    exactly 1 and the incorrect counter of the question becomes 0, which
    does not increase it exactly when it was not negative before; if not,
    the score is unchanged and the incorrect counter grows by exactly 1.
    The counters of the other questions are untouched. *)
Theorem submission_graded (a : app) (k : option_key) (idx : nat) (q : question)
    (att inc : Z) :
  quiz_stage (sess a) = quiz_in_progress →
  (current_question_idx (sess a) < total_questions_asked (sess a))%nat →
  quiz_questions (sess a) !! current_question_idx (sess a) = Some (idx, q) →
  attempted_counts (sess a) !! idx = Some att →
  incorrect_attempt_counts (sess a) !! idx = Some inc →
  HeaderReadFails ∉ take 2 (faults (wld a)) →
  let s' := sess (press (SubmitAnswer k) a) in
  attempted_counts s' !! idx = Some (att + 1) ∧
  (same_label k q →
     correct_answers_count s' = correct_answers_count (sess a) + 1 ∧
     incorrect_attempt_counts s' !! idx = Some 0 ∧
     (∀ inc', incorrect_attempt_counts s' !! idx = Some inc' →
              (inc' ≤ inc ↔ 0 ≤ inc))) ∧
  (¬ same_label k q →
     correct_answers_count s' = correct_answers_count (sess a) ∧
     incorrect_attempt_counts s' !! idx = Some (inc + 1)) ∧
  (∀ j, j ≠ idx →
     attempted_counts s' !! j = attempted_counts (sess a) !! j ∧
     incorrect_attempt_counts s' !! j = incorrect_attempt_counts (sess a) !! j).
Proof.
  intros Hstage Hlt Hq Hatt Hinc Hf.
  destruct (press_submit a k idx q) as [Hs _]; [by eauto..|].
  cbv zeta. rewrite Hs. unfold graded, get0. rewrite Hatt, Hinc. simpl.
  rewrite <- is_correct_same_label.
  destruct (decide (is_correct k q)) as [Hc|Hc]; simpl;
    (split; [|split; [|split]];
     [apply lookup_insert_eq
     |intros ?; first [done | split; [done|]]
     |intros ?; first [done | split; [done|apply lookup_insert_eq]]
     |intros j Hj; by rewrite !lookup_insert_ne]).
  rewrite lookup_insert_eq. split; [done|]. by intros inc' [= <-].
Qed.

Lemma submission_graded_witness :
  let s' := sess (press (SubmitAnswer key_d) a3) in
  attempted_counts s' !! 3%nat = Some (0 + 1) ∧
  (same_label key_d (mkq 1 "D" 0 0) →
     correct_answers_count s' = correct_answers_count (sess a3) + 1 ∧
     incorrect_attempt_counts s' !! 3%nat = Some 0 ∧
     (∀ inc', incorrect_attempt_counts s' !! 3%nat = Some inc' →
              (inc' ≤ 0 ↔ 0 ≤ 0))) ∧
  (¬ same_label key_d (mkq 1 "D" 0 0) →
     correct_answers_count s' = correct_answers_count (sess a3) ∧
     incorrect_attempt_counts s' !! 3%nat = Some (0 + 1)) ∧
  (∀ j, j ≠ 3%nat →
     attempted_counts s' !! j = attempted_counts (sess a3) !! j ∧
     incorrect_attempt_counts s' !! j = incorrect_attempt_counts (sess a3) !! j).
Proof.
  apply (submission_graded a3 key_d 3 (mkq 1 "D" 0 0) 0 0);
    [reflexivity | vm_compute; lia | reflexivity | reflexivity | reflexivity
    | vm_compute; apply not_elem_of_nil].
Defined.

Lemma start_quiz_sample_witness :
  let pool := get_questions_for_mode_streamlit (data_df (sess b2))
                (selected_chapters (sess b2)) normal
                (attempted_counts (sess b2)) (incorrect_attempt_counts (sess b2)) in
  let a' := press (StartQuiz 2) b2 in
  let qs := quiz_questions (sess a') in
  quiz_stage (sess a') = quiz_in_progress ∧
  Z.of_nat (length qs) = 2 ∧
  NoDup (index qs) ∧
  (∀ r, r ∈ qs → r ∈ pool) ∧
  (2 = Z.of_nat (length pool) → qs = pool ∧ rng (wld a') = rng (wld b2)) ∧
  total_questions_asked (sess a') = length qs ∧
  current_question_idx (sess a') = 0%nat ∧
  correct_answers_count (sess a') = 0.
Proof.
  apply (start_quiz_sample b2 normal 2); [reflexivity | reflexivity | vm_compute; by split].
Defined.

(** ** Persistence of the incorrect counter *)

(** C7, as stated, fails: row 3 has incorrect counter 0 before the correct
    answer is graded, and the write of the incorrect column is issued all
    the same. *)
Lemma reset_written_when_already_zero :
  incorrect_attempt_counts (sess a3) !! 3%nat = Some 0 ∧
  is_correct key_d (mkq 1 "D" 0 0) ∧
  requests (wld a3) = [] ∧
  requests (wld (press (SubmitAnswer key_d) a3)) =
    [(3%nat, "Attempted", 1); (3%nat, "Incorrect attempt", 0)].
Proof. by vm_compute. Qed.

(** C7 (amended): when a correct answer is graded, the incorrect counter
    of the question is set to 0 in the session and the write of value 0 to
    the incorrect column of the question is always issued, right after the
    write of the attempted column, whatever the incorrect counter was
    before, if it had a value at all. *)
Theorem correct_answer_always_writes_reset (a : app) (k : option_key) (idx : nat)
    (q : question) (att : Z) :
  quiz_stage (sess a) = quiz_in_progress →
  (current_question_idx (sess a) < total_questions_asked (sess a))%nat →
  quiz_questions (sess a) !! current_question_idx (sess a) = Some (idx, q) →
  attempted_counts (sess a) !! idx = Some att →
  HeaderReadFails ∉ take 2 (faults (wld a)) →
  same_label k q →
  incorrect_attempt_counts (sess (press (SubmitAnswer k) a)) !! idx = Some 0 ∧
  requests (wld (press (SubmitAnswer k) a)) =
    (requests (wld a) ++
       [(idx, "Attempted", att + 1); (idx, "Incorrect attempt", 0)])%list.
Proof.
  intros Hstage Hlt Hq Hatt Hf Hc%is_correct_same_label.
  destruct (press_submit a k idx q) as [Hs Hr]; [by eauto..|].
  rewrite Hs, Hr. unfold graded, incorrect_written, get0. rewrite Hatt. simpl.
  rewrite !decide_True by done. simpl. by rewrite lookup_insert_eq.
Qed.

Lemma correct_answer_always_writes_reset_witness :
  incorrect_attempt_counts (sess (press (SubmitAnswer key_d) a3)) !! 3%nat = Some 0 ∧
  requests (wld (press (SubmitAnswer key_d) a3)) =
    (requests (wld a3) ++
       [(3%nat, "Attempted", 0 + 1); (3%nat, "Incorrect attempt", 0)])%list.
Proof.
  apply (correct_answer_always_writes_reset a3 key_d 3 (mkq 1 "D" 0 0) 0);
    [reflexivity | vm_compute; lia | reflexivity | reflexivity
    | vm_compute; apply not_elem_of_nil | reflexivity].
Defined.

(** ** Restart *)

Section restart.
Implicit Types (a : app) (df : table).

(** Within the time to live, the loader answers from its cache and the
    spreadsheet is not read. *)
Lemma load_cached a df :
  cached cache_ttl (now (wld a)) (cache_data (wld a)) = Some df →
  load_data_from_gsheets a = (Normal df, a).
Proof.
  intros H. unfold load_data_from_gsheets. rewrite bind_eq. simpl.
  by rewrite H.
Qed.

(** The coercions of the loader, one column after the other. *)
Lemma loaded_with_number (columns : list string) df :
  "Question No." ∈ columns →
  (λ q, set_Question_No (to_numeric_int (Question_No q)) q) <$>
    ((λ q, set_Incorrect_attempt (to_numeric_int (Incorrect_attempt q)) q) <$>
       ((λ q, set_Attempted (to_numeric_int (Attempted q)) q) <$> df)) =
  loaded columns df.
Proof.
  intros Hn. apply list_eq. intros i. unfold loaded.
  rewrite list_lookup_imap, !list_lookup_fmap.
  destruct (df !! i) as [q|]; simpl; [|done].
  unfold loaded_row. by rewrite decide_True.
Qed.

Lemma loaded_without_number (columns : list string) df :
  "Question No." ∉ columns →
  imap (λ i q, set_Question_No (index_plus_1 i) q)
    ((λ q, set_Incorrect_attempt (to_numeric_int (Incorrect_attempt q)) q) <$>
       ((λ q, set_Attempted (to_numeric_int (Attempted q)) q) <$> df)) =
  loaded columns df.
Proof.
  intros Hn. apply list_eq. intros i. unfold loaded.
  rewrite !list_lookup_imap, !list_lookup_fmap.
  destruct (df !! i) as [q|]; simpl; [|done].
  unfold loaded_row. by rewrite decide_False.
Qed.

Lemma loaded_lookup (columns : list string) df (i : nat) :
  loaded columns df !! i = loaded_row columns i <$> df !! i.
Proof. unfold loaded. apply list_lookup_imap. Qed.

Lemma length_loaded (columns : list string) df :
  length (loaded columns df) = length df.
Proof. unfold loaded. apply length_imap. Qed.

(** With both caches expired the table is read from the spreadsheet; with
    the two counter columns in its header row the rows are coerced and the
    result is stored in both caches. *)
Lemma load_fetches a :
  cached cache_ttl (now (wld a)) (cache_data (wld a)) = None →
  cached conn_ttl (now (wld a)) (conn_cache (wld a)) = None →
  read_ok (wld a) = true →
  "Attempted" ∈ headers (wld a) →
  "Incorrect attempt" ∈ headers (wld a) →
  let df := loaded (headers (wld a)) (sheet (wld a)) in
  load_data_from_gsheets a =
    (Normal df,
     {| sess := sess a;
        wld := set_cache_data (Some (now (wld a), df))
                 (set_conn_cache
                    (Some (now (wld a), (headers (wld a), sheet (wld a)))) (wld a));
        page := (page a ++ load_messages (headers (wld a)))%list |}).
Proof.
  intros H1 H2 H3 Ha Hi. cbv zeta. unfold load_data_from_gsheets, conn_read.
  rewrite bind_eq. simpl. rewrite H1. monad_unfold. simpl.
  rewrite H2, H3. simpl. rewrite !decide_True by done. unfold load_messages.
  destruct (decide ("Question No." ∈ headers (wld a))) as [Hn|Hn]; simpl.
  - by rewrite (loaded_with_number (headers (wld a))), app_nil_r.
  - by rewrite (loaded_without_number (headers (wld a))).
Qed.

(** A counter column missing from the frame stops the load like a failed
    read. *)
Lemma load_without_counter_column a :
  cached cache_ttl (now (wld a)) (cache_data (wld a)) = None →
  cached conn_ttl (now (wld a)) (conn_cache (wld a)) = None →
  read_ok (wld a) = true →
  "Attempted" ∉ headers (wld a) ∨ "Incorrect attempt" ∉ headers (wld a) →
  (load_data_from_gsheets a).1 = Stop ∧
  page (load_data_from_gsheets a).2 = (page a ++ [msg_load])%list ∧
  cache_data (wld (load_data_from_gsheets a).2) = cache_data (wld a).
Proof.
  intros H1 H2 H3 Hc. unfold load_data_from_gsheets, conn_read, load_failed.
  rewrite bind_eq. simpl. rewrite H1. monad_unfold. simpl.
  rewrite H2, H3. simpl.
  destruct (decide ("Attempted" ∈ headers (wld a))); simpl; [|done].
  destruct (decide ("Incorrect attempt" ∈ headers (wld a))); simpl; [|done].
  by destruct Hc.
Qed.

(** Every outcome of the loader: a table, or [st.stop()]; the session and
    the fates of the write calls are not its business. *)
Lemma load_data_from_gsheets_outcome a :
  ∃ c w' p',
    load_data_from_gsheets a = (c, {| sess := sess a; wld := w'; page := p' |}) ∧
    faults w' = faults (wld a) ∧
    ((∃ df, c = Normal df) ∨ c = Stop).
Proof.
  unfold load_data_from_gsheets, conn_read, load_failed. monad_unfold. simpl.
  destruct (cached cache_ttl _ _); simpl.
  { destruct a. eexists _, _, _. split_and!; eauto. }
  destruct (cached conn_ttl _ _) as [[cols df]|]; simpl;
    [|destruct (read_ok (wld a)); simpl];
    repeat (case_decide; simpl); eexists _, _, _; split_and!; eauto.
Qed.

(** Whatever table the loader returns, the handler leaves the session in
    its initial state over that table. *)
Lemma start_new_quiz_run a df a1 :
  load_data_from_gsheets a = (Normal df, a1) →
  start_new_quiz a =
    (Rerun, {| sess := initial_session df; wld := wld a1; page := page a1 |}).
Proof. intros H. unfold start_new_quiz. rewrite bind_eq, H. reflexivity. Qed.

(** "Start New Quiz" ends in a rerun, or in the stop of a failed load. *)
Lemma start_new_quiz_outcome a :
  (start_new_quiz a).1 = Rerun ∨ (start_new_quiz a).1 = Stop.
Proof.
  unfold start_new_quiz. rewrite bind_eq.
  destruct (load_data_from_gsheets_outcome a) as (c & w' & p' & -> & _ & [[df ->] | ->]);
    [by left|by right].
Qed.

Lemma script_chapter_selection_idle a :
  quiz_stage (sess a) = chapter_selection → script None a = (Normal tt, a).
Proof. intros H. unfold script. rewrite bind_eq. simpl. by rewrite H. Qed.

(** A restart within ten minutes of the load: the session is rebuilt from
    the cached table, and the world, spreadsheet included, is not touched. *)
Lemma restart_within_ttl a t df :
  quiz_stage (sess a) = quiz_finished →
  cache_data (wld a) = Some (t, df) →
  now (wld a) - t < cache_ttl →
  sess (press StartNewQuiz a) = initial_session df ∧
  wld (press StartNewQuiz a) = wld a.
Proof.
  intros Hstage Hc Ht. unfold press. rewrite run_eq.
  assert (script (Some StartNewQuiz) (clear_page a) =
            (Rerun, {| sess := initial_session df; wld := wld a;
                       page := [score_banner (sess a)] |})) as ->.
  { rewrite script_finished by done. simpl.
    rewrite (start_new_quiz_run _ df
               {| sess := sess a; wld := wld a; page := [score_banner (sess a)] |});
      [reflexivity|].
    apply load_cached. simpl. rewrite Hc. simpl. by rewrite decide_True. }
  rewrite run_eq. by rewrite script_chapter_selection_idle.
Qed.

End restart.

(** C2, evaluated on the session [a1 .. a6]: the answer given at [a4] was
    written to the spreadsheet (row 3 has 1 attempt there), the restart
    comes 60 seconds after the load, and the session it builds has the table
    and the counters of the first load (row 3 has 0 attempts); the cursor,
    the score, the selections and the question list are reset. *)
Theorem restart_serves_cached_table :
  quiz_stage (sess a5) = quiz_finished ∧
  Attempted <$> sheet (wld a6) = [0; 2; 1; 1] ∧
  Attempted <$> data_df (sess a6) = [0; 2; 1; 0] ∧
  attempted_counts (sess a6) !! 3%nat = Some 0 ∧
  sess a6 = initial_session demo.
Proof. by vm_compute. Qed.

(** ** A header row that cannot be read *)

Lemma update_gsheet_cell_header_failure (row : nat) (col : string) (v : Z) (a : app) :
  hd Healthy (faults (wld a)) = HeaderReadFails →
  update_gsheet_cell row col v a =
    (Raise APIError,
     {| sess := sess a; wld := entered row col v (wld a); page := page a |}).
Proof. intros H. rewrite update_gsheet_cell_eq. cbv zeta. by rewrite H. Qed.

(** C9, evaluated on [a3_header_failure]: the exception of the header read
    leaves [update_gsheet_cell] without any message of its own, and the
    rest of the submit handler does not run: the attempted counter is
    already 1, but the answer is not graded and the cursor stays. *)
Theorem header_read_failure_escapes :
  (update_gsheet_cell 3 "Attempted" 1 a3_header_failure).1 = Raise APIError ∧
  page (update_gsheet_cell 3 "Attempted" 1 a3_header_failure).2 = [] ∧
  let a' := press (SubmitAnswer key_d) a3_header_failure in
  page a' = [StException "uncaught exception"] ∧
  attempted_counts (sess a') !! 3%nat = Some 1 ∧
  correct_answers_count (sess a') = 0 ∧
  current_question_idx (sess a') = 0%nat ∧
  requests (wld a') = [(3%nat, "Attempted", 1)].
Proof. by vm_compute. Qed.

(** ** Invalid chapter input *)

Lemma invalid_expression_error (df : table) (s : string) :
  ¬ valid_expression df s →
  ∃ m, is_error m = true ∧ parse_chapter_input df s = ([], [m]).
Proof.
  intros Hinv.
  assert (s ≠ "all") as Hall by (intros ->; apply Hinv; by left).
  destruct (Py.contains "-" s) eqn:Hdash.
  - destruct (parse_range df s Hall Hdash)
      as [(a & b & x & y & Hs & Ha & Hb & _)|[_ Hr]]; [|by exists msg_bad_range].
    exfalso. apply Hinv. right. left. split; [done|]. exists a, b.
    rewrite Ha, Hb. split_and!; [|by eauto..].
    by apply (split_two_inv "-").
  - unfold parse_chapter_input. rewrite decide_False, Hdash by done.
    destruct (mapM _ _) as [sel|] eqn:Hm; [|by exists msg_bad_list].
    destruct (forallb _ sel) eqn:Hf; [|by exists msg_no_such_chapter].
    exfalso. apply Hinv. right. right. split; [done|].
    apply mapM_Some in Hm. apply Is_true_true_2, forallb_True in Hf.
    induction Hm as [|tok ch toks sel Htok _ IH]; [constructor|].
    apply Forall_cons in Hf as [Hch Hf]. constructor; [|by apply IH].
    exists ch. rewrite <- int_strip. split; [done|]. by apply bool_decide_unpack in Hch.
Qed.

(** C8: in the chapter-selection stage, confirming an expression that is
    not valid leaves the stage as it is, shows an error message, and changes
    nothing in the session (no counter in particular) nor in the world (no
    write is issued). *)
Theorem invalid_chapter_input_rejected (a : app) (chapter_input : string) :
  quiz_stage (sess a) = chapter_selection →
  ¬ valid_expression (data_df (sess a)) chapter_input →
  let a' := press (ConfirmChapters chapter_input) a in
  quiz_stage (sess a') = chapter_selection ∧
  (∃ m, m ∈ page a' ∧ is_error m = true) ∧
  attempted_counts (sess a') = attempted_counts (sess a) ∧
  incorrect_attempt_counts (sess a') = incorrect_attempt_counts (sess a) ∧
  sess a' = sess a ∧
  wld a' = wld a.
Proof.
  intros Hstage Hinv.
  destruct (invalid_expression_error _ _ Hinv) as (m & Hm & Hp).
  assert (press (ConfirmChapters chapter_input) a =
            {| sess := sess a; wld := wld a; page := [m] |}) as ->.
  { unfold press. rewrite run_eq. unfold script. rewrite bind_eq. simpl.
    rewrite Hstage. unfold confirm_chapters. rewrite bind_eq. simpl.
    rewrite Hp. reflexivity. }
  simpl. split_and!; try done. exists m. split; [set_solver|done].
Qed.

Lemma invalid_chapter_input_rejected_witness :
  let a' := press (ConfirmChapters "1,x") (boot w0).2 in
  quiz_stage (sess a') = chapter_selection ∧
  (∃ m, m ∈ page a' ∧ is_error m = true) ∧
  attempted_counts (sess a') = attempted_counts (sess (boot w0).2) ∧
  incorrect_attempt_counts (sess a') = incorrect_attempt_counts (sess (boot w0).2) ∧
  sess a' = sess (boot w0).2 ∧
  wld a' = wld (boot w0).2.
Proof.
  apply (invalid_chapter_input_rejected (boot w0).2 "1,x"); [reflexivity|].
  intros [H|[[H _]|[_ H]]]; [discriminate H|discriminate H|].
  vm_compute in H. apply Forall_cons in H as [_ H].
  apply Forall_cons in H as [(ch & H & _) _]. discriminate H.
Defined.

(** ** The score banner *)

Section banner.
Local Open Scope Q_scope.

Lemma Qle_70_80 : 70 <= 80.
Proof. unfold Qle. simpl. lia. Qed.

Lemma band_cases (p : Q) :
  (band p = darkgreen ↔ 80 <= p) ∧
  (band p = darkorange ↔ 70 <= p ∧ p < 80) ∧
  (band p = red ↔ p < 70).
Proof.
  unfold band.
  destruct (Qle_bool 80 p) eqn:H80; [apply Qle_bool_iff in H80|];
    [|destruct (Qle_bool 70 p) eqn:H70; [apply Qle_bool_iff in H70|]].
  - split_and!; split; try done.
    + intros [_ H]. by apply Qlt_not_le in H.
    + intros H. exfalso. apply (Qlt_not_le _ _ H).
      exact (Qle_trans _ _ _ Qle_70_80 H80).
  - assert (p < 80).
    { apply Qnot_le_lt. rewrite <- Qle_bool_iff. by rewrite H80. }
    split_and!; split; try done.
    + intros H'. by apply Qlt_not_le in H.
    + intros H'. by apply Qlt_not_le in H'.
  - assert (p < 70).
    { apply Qnot_le_lt. rewrite <- Qle_bool_iff. by rewrite H70. }
    split_and!; split; try done.
    + intros H'. exfalso. apply (Qlt_not_le _ _ H).
      exact (Qle_trans _ _ _ Qle_70_80 H').
    + intros [H' _]. by apply Qlt_not_le in H.
Qed.

(** With a positive total, [k <= (correct / total) * 100] is a comparison
    of integers. *)
Lemma percentage_ge (k correct : Z) (total : nat) :
  total ≠ 0%nat →
  (inject_Z k <= percentage correct total ↔
   (k * Z.of_nat total ≤ 100 * correct)%Z).
Proof.
  intros Ht. unfold percentage. rewrite decide_False by done.
  destruct total as [|t]; [done|].
  unfold Qle, Qdiv, Qmult, Qinv, inject_Z. simpl.
  rewrite Pos.mul_1_r, !Z.mul_1_r. lia.
Qed.

End banner.

Lemma percentage_and_band (correct : Z) (total : nat) :
  let p := percentage correct total in
  (total = 0%nat → p = 0%Q ∧ band p = red) ∧
  (total ≠ 0%nat →
     p = (inject_Z correct / inject_Z (Z.of_nat total) * 100)%Q ∧
     (band p = darkgreen ↔ (80 <= p)%Q) ∧
     (band p = darkorange ↔ (70 <= p)%Q ∧ (p < 80)%Q) ∧
     (band p = red ↔ (p < 70)%Q) ∧
     ((80 <= p)%Q ↔ 80 * Z.of_nat total ≤ 100 * correct) ∧
     ((70 <= p)%Q ↔ 70 * Z.of_nat total ≤ 100 * correct)).
Proof.
  cbv zeta. split.
  - intros ->. unfold percentage. simpl. done.
  - intros Ht. split_and!.
    + unfold percentage. by rewrite decide_False.
    + apply band_cases.
    + apply band_cases.
    + apply band_cases.
    + apply (percentage_ge 80 correct total Ht).
    + apply (percentage_ge 70 correct total Ht).
Qed.

(** C10: in the finished stage no run of the script raises an exception,
    so no division by zero occurs: with nothing asked the guard gives the
    percentage 0 and the division, which raises [ZeroDivisionError] there,
    is not reached. The stage shows one heading, made of the style,
    [correct], [total] and the percentage. With nothing asked the
    percentage is 0 and the style is red; with a positive total the
    percentage is [correct / total * 100], the style is dark green from 80
    on, dark orange from 70 up to 80, red below 70, and these thresholds
    amount to [80 * total <= 100 * correct] and
    [70 * total <= 100 * correct]. *)
Theorem finished_banner (a : app) :
  quiz_stage (sess a) = quiz_finished →
  let correct := correct_answers_count (sess a) in
  let total := total_questions_asked (sess a) in
  let p := percentage correct total in
  (∀ ev e, (script ev (clear_page a)).1 ≠ Raise e) ∧
  (script None (clear_page a)).1 = Normal tt ∧
  (total = 0%nat →
     (true_div correct (Z.of_nat total) (clear_page a)).1 = Raise ZeroDivisionError) ∧
  page (run 0 None a) = [StScore (band p) correct total p] ∧
  (total = 0%nat → p = 0%Q ∧ band p = red) ∧
  (total ≠ 0%nat →
     p = (inject_Z correct / inject_Z (Z.of_nat total) * 100)%Q ∧
     (band p = darkgreen ↔ (80 <= p)%Q) ∧
     (band p = darkorange ↔ (70 <= p)%Q ∧ (p < 80)%Q) ∧
     (band p = red ↔ (p < 70)%Q) ∧
     ((80 <= p)%Q ↔ 80 * Z.of_nat total ≤ 100 * correct) ∧
     ((70 <= p)%Q ↔ 70 * Z.of_nat total ≤ 100 * correct)).
Proof.
  intros Hstage. cbv zeta. split_and!.
  - intros ev e. rewrite script_finished by done.
    destruct ev as [[]|]; try done.
    match goal with |- context [start_new_quiz ?st] =>
      by destruct (start_new_quiz_outcome st) as [-> | ->]
    end.
  - by rewrite script_finished.
  - intros ->. reflexivity.
  - unfold run. by rewrite script_finished.
  - apply percentage_and_band.
  - apply percentage_and_band.
Qed.

Lemma finished_banner_witness :
  let correct := correct_answers_count (sess a5) in
  let total := total_questions_asked (sess a5) in
  let p := percentage correct total in
  (∀ ev e, (script ev (clear_page a5)).1 ≠ Raise e) ∧
  (script None (clear_page a5)).1 = Normal tt ∧
  (total = 0%nat →
     (true_div correct (Z.of_nat total) (clear_page a5)).1 = Raise ZeroDivisionError) ∧
  page (run 0 None a5) = [StScore (band p) correct total p] ∧
  (total = 0%nat → p = 0%Q ∧ band p = red) ∧
  (total ≠ 0%nat →
     p = (inject_Z correct / inject_Z (Z.of_nat total) * 100)%Q ∧
     (band p = darkgreen ↔ (80 <= p)%Q) ∧
     (band p = darkorange ↔ (70 <= p)%Q ∧ (p < 80)%Q) ∧
     (band p = red ↔ (p < 70)%Q) ∧
     ((80 <= p)%Q ↔ 80 * Z.of_nat total ≤ 100 * correct) ∧
     ((70 <= p)%Q ↔ 70 * Z.of_nat total ≤ 100 * correct)).
Proof. apply (finished_banner a5). reflexivity. Defined.

(** A finished stage with nothing asked: the heading shows 0 of 0 and 0
    percent in red, where the division alone raises. *)
Example finished_with_nothing_asked :
  let a := {| sess := set_quiz_stage quiz_finished (initial_session demo);
              wld := w0; page := [] |} in
  script None a = (Normal tt, {| sess := sess a; wld := w0;
                                 page := [StScore red 0 0 0%Q] |}) ∧
  (true_div 0 0 a).1 = Raise ZeroDivisionError.
Proof. by vm_compute. Qed.


(** * Further properties of the script *)

(** ** Chapter selector: order of the result, and the transition *)

Lemma StronglySorted_le_lt (l : list Z) :
  StronglySorted Z.le l → NoDup l → StronglySorted Z.lt l.
Proof.
  induction 1 as [|x l Hs IH Hx]; intros Hd; [constructor|].
  apply NoDup_cons in Hd as [Hnx Hd]. constructor; [by apply IH|].
  rewrite Forall_forall in *. intros y Hy.
  specialize (Hx y Hy). assert (x ≠ y) by (intros ->; done). lia.
Qed.

Lemma StronglySorted_filter_lt (P : Z → Prop) `{∀ x, Decision (P x)} (l : list Z) :
  StronglySorted Z.lt l → StronglySorted Z.lt (filter P l).
Proof.
  induction 1 as [|x l Hs IH Hx]; [constructor|].
  rewrite filter_cons. case_decide; [|done]. constructor; [done|].
  rewrite Forall_forall in *. intros y [_ Hy]%list_elem_of_filter. by apply Hx.
Qed.

Lemma all_available_increasing (df : table) :
  StronglySorted Z.lt (all_available_chapters df).
Proof.
  apply StronglySorted_le_lt; [|apply NoDup_all_available].
  unfold all_available_chapters, Py.sorted. apply StronglySorted_merge_sort; apply _.
Qed.

(** X1: the list accepted for ["all"] or for a range is strictly
    increasing; for ["all"] it holds exactly the chapter numbers that occur
    in the table. *)
Theorem all_and_range_increasing (df : table) (s : string) (sel : list Z) :
  parse_chapter_input df s = (sel, []) →
  s = "all" ∨ Py.contains "-" s = true →
  StronglySorted Z.lt sel ∧
  (s = "all" → ∀ ch, ch ∈ sel ↔ ∃ q, q ∈ df ∧ Chapter q = ch).
Proof.
  intros Hp Hs. destruct (decide (s = "all")) as [->|Hall].
  - unfold parse_chapter_input in Hp. simpl in Hp. injection Hp as <-.
    split; [apply all_available_increasing|]. intros _ ch. apply elem_of_all_available.
  - destruct Hs as [?|Hdash]; [done|]. split; [|done].
    destruct (parse_range df s Hall Hdash) as [(a & b & x & y & _ & _ & _ & Hr)|[_ Hr]];
      rewrite Hr in Hp; [|done]. injection Hp as <-.
    apply StronglySorted_filter_lt, all_available_increasing.
Qed.

Lemma all_and_range_increasing_witness :
  StronglySorted Z.lt [1; 2; 3] ∧
  (("all" : string) = "all" → ∀ ch, ch ∈ [1; 2; 3] ↔ ∃ q, q ∈ demo ∧ Chapter q = ch).
Proof.
  apply (all_and_range_increasing demo "all" [1; 2; 3]); [by vm_compute|by left].
Defined.

Lemma script_mode_selection_idle (a : app) :
  quiz_stage (sess a) = mode_selection →
  ∃ p, script None a = (Normal tt, {| sess := sess a; wld := wld a; page := p |}).
Proof.
  intros H. unfold script. rewrite bind_eq. simpl. rewrite H.
  destruct a as [s w p]. destruct (mode_options _); eexists; reflexivity.
Qed.

Lemma show_all_run (ms : list ui_msg) (a : app) :
  show_all ms a =
    (Normal tt, {| sess := sess a; wld := wld a; page := (page a ++ ms)%list |}).
Proof.
  revert a. induction ms as [|m ms IH]; intros a; simpl.
  - rewrite app_nil_r. by destruct a.
  - rewrite bind_eq. simpl. rewrite IH. simpl. by rewrite <- (assoc_L (++)).
Qed.

(** X2: "Confirm Chapters" moves to the mode selection exactly when the
    parser returns a non-empty list, and then stores that list and nothing
    else; when the list is empty the session is unchanged and the page shows
    exactly the parser's messages, so an empty range is refused without any
    message. The world is never touched. *)
Theorem confirm_advances_iff_nonempty (a : app) (chapter_input : string) :
  quiz_stage (sess a) = chapter_selection →
  let r := parse_chapter_input (data_df (sess a)) chapter_input in
  let a' := press (ConfirmChapters chapter_input) a in
  (quiz_stage (sess a') = mode_selection ↔ r.1 ≠ []) ∧
  (r.1 ≠ [] →
     sess a' = set_quiz_stage mode_selection (set_selected_chapters r.1 (sess a))) ∧
  (r.1 = [] → sess a' = sess a ∧ page a' = r.2) ∧
  wld a' = wld a.
Proof.
  intros Hstage. cbv zeta.
  destruct (parse_chapter_input (data_df (sess a)) chapter_input) as [sel errs] eqn:Hp.
  assert (script (Some (ConfirmChapters chapter_input)) (clear_page a) =
          match sel with
          | [] => (Normal tt, {| sess := sess a; wld := wld a; page := errs |})
          | _ :: _ =>
              (Rerun, {| sess := set_quiz_stage mode_selection
                                   (set_selected_chapters sel (sess a));
                         wld := wld a; page := errs |})
          end) as Hs.
  { unfold script. rewrite bind_eq. simpl. rewrite Hstage.
    unfold confirm_chapters. rewrite bind_eq. simpl. rewrite Hp.
    rewrite bind_eq, show_all_run. simpl. by destruct sel. }
  unfold press. rewrite run_eq, Hs. destruct sel as [|x sel].
  - simpl. rewrite Hstage. split_and!; try done; naive_solver.
  - rewrite run_eq.
    destruct (script_mode_selection_idle
                (clear_page {| sess := set_quiz_stage mode_selection
                                 (set_selected_chapters (x :: sel) (sess a));
                               wld := wld a; page := errs |})) as [p ->]; [done|].
    simpl. split_and!; try done.
Qed.

Lemma confirm_advances_iff_nonempty_witness :
  let r := parse_chapter_input (data_df (sess (boot w0).2)) "7-9" in
  let a' := press (ConfirmChapters "7-9") (boot w0).2 in
  (quiz_stage (sess a') = mode_selection ↔ r.1 ≠ []) ∧
  (r.1 ≠ [] →
     sess a' = set_quiz_stage mode_selection
                 (set_selected_chapters r.1 (sess (boot w0).2))) ∧
  (r.1 = [] → sess a' = sess (boot w0).2 ∧ page a' = r.2) ∧
  wld a' = wld (boot w0).2.
Proof. apply (confirm_advances_iff_nonempty (boot w0).2 "7-9"). reflexivity. Defined.

(** ** Counts shown in the mode selection *)

Lemma length_filter_index (P : nat → Prop) `{∀ i, Decision (P i)} (f : frame) :
  length (filter P (index f)) = length (filter (λ r : nat * question, P r.1) f).
Proof.
  unfold index. induction f as [|r f IH]; [done|].
  rewrite fmap_cons, !filter_cons. simpl. case_decide; simpl; by rewrite IH.
Qed.

Lemma length_filter_agree {A} (P Q : A → Prop) `{∀ x, Decision (P x)}
    `{∀ x, Decision (Q x)} (l : list A) :
  (∀ x, x ∈ l → (P x ↔ Q x)) → length (filter P l) = length (filter Q l).
Proof.
  induction l as [|x l IH]; intros Hl; [done|].
  rewrite !filter_cons.
  assert (P x ↔ Q x) as Hx by (apply Hl; left).
  assert (length (filter P l) = length (filter Q l)) as IH'
    by (apply IH; intros y Hy; apply Hl; by right).
  destruct (decide (P x)), (decide (Q x)); simpl; try tauto; by rewrite IH'.
Qed.

Lemma filtered_df_label (df : table) (chs : list Z) (r : nat * question) :
  r ∈ filtered_df df chs → (r.1 < length df)%nat.
Proof.
  intros [_ Hr%elem_of_rows]%list_elem_of_filter.
  by eapply lookup_lt_Some.
Qed.

Lemma question_counts_sizes (df : table) (chs : list Z) (att inc : gmap nat Z) :
  (∀ i, (i < length df)%nat → is_Some (att !! i)) →
  get_question_counts_streamlit df chs att inc =
    (length (get_questions_for_mode_streamlit df chs normal att inc),
     length (get_questions_for_mode_streamlit df chs incorrect att inc),
     length (get_questions_for_mode_streamlit df chs new att inc)).
Proof.
  intros Hcover. unfold get_question_counts_streamlit. simpl.
  rewrite !length_filter_index. unfold index_isin. f_equal; [f_equal|].
  - apply length_filter_agree. intros r _. by rewrite elem_of_incorrect_q_indices.
  - apply length_filter_agree. intros r Hr. rewrite elem_of_new_q_indices.
    destruct (Hcover r.1 (filtered_df_label _ _ _ Hr)) as [c Hc].
    unfold get0. rewrite Hc. simpl. naive_solver.
Qed.

(** X3: when the attempted dict has an entry for every row of the table,
    the three numbers shown in the mode selection are the sizes of the pools
    of the three modes. *)
Theorem question_counts_are_pool_sizes (df : table) (chs : list Z)
    (att inc : gmap nat Z) :
  (∀ i, (i < length df)%nat → is_Some (att !! i)) →
  let pool m := get_questions_for_mode_streamlit df chs m att inc in
  get_question_counts_streamlit df chs att inc =
    (length (pool normal), length (pool incorrect), length (pool new)).
Proof. intros Hcover. cbv zeta. by apply question_counts_sizes. Qed.

Lemma question_counts_are_pool_sizes_witness :
  let pool m := get_questions_for_mode_streamlit demo [1; 2] m
                  (to_dict Attempted demo) (to_dict Incorrect_attempt demo) in
  get_question_counts_streamlit demo [1; 2]
      (to_dict Attempted demo) (to_dict Incorrect_attempt demo) =
    (length (pool normal), length (pool incorrect), length (pool new)).
Proof.
  apply (question_counts_are_pool_sizes demo [1; 2]).
  intros i Hi. rewrite to_dict_lookup. apply fmap_is_Some.
  by apply lookup_lt_is_Some_2.
Defined.

(** Without that entry, the count of new questions and the pool of new
    questions part: a row missing from the attempted dict is counted as new
    by [get(idx, 0)] and is left out of the pool by [items()]. *)
Example new_count_without_entry :
  get_question_counts_streamlit demo [1; 2] ∅ ∅ = (3, 0, 3)%nat ∧
  get_questions_for_mode_streamlit demo [1; 2] new ∅ ∅ = [].
Proof. by vm_compute. Qed.

Lemma mode_options_spec (s : session) (m : mode) :
  wf_session s →
  m ∈ mode_options s ↔
  get_questions_for_mode_streamlit (data_df s) (selected_chapters s) m
    (attempted_counts s) (incorrect_attempt_counts s) ≠ [].
Proof.
  intros (Hatt & _). unfold mode_options.
  rewrite question_counts_sizes by (intros i Hi; by apply Hatt).
  assert (∀ l : frame, (0 < length l)%nat ↔ l ≠ []) as Hlen.
  { intros [|? ?]; simpl; split; try done; lia. }
  repeat case_decide; destruct m; rewrite ?elem_of_app, ?elem_of_cons, ?elem_of_nil;
    rewrite <- ?Hlen; naive_solver.
Qed.

(** X4: in a well-formed session, a mode is offered in the mode selection
    exactly when its pool is not empty. *)
Theorem mode_offered_iff_pool_nonempty (s : session) (m : mode) :
  wf_session s →
  m ∈ mode_options s ↔
  get_questions_for_mode_streamlit (data_df s) (selected_chapters s) m
    (attempted_counts s) (incorrect_attempt_counts s) ≠ [].
Proof. apply mode_options_spec. Qed.

Lemma mode_offered_iff_pool_nonempty_witness :
  new ∈ mode_options (sess a1) ↔
  get_questions_for_mode_streamlit (data_df (sess a1)) (selected_chapters (sess a1)) new
    (attempted_counts (sess a1)) (incorrect_attempt_counts (sess a1)) ≠ [].
Proof.
  apply (mode_offered_iff_pool_nonempty (sess a1) new).
  split_and!; try done.
  - intros i. change (attempted_counts (sess a1)) with (to_dict Attempted demo).
    rewrite to_dict_lookup, fmap_is_Some. apply lookup_lt_is_Some.
  - intros i. change (incorrect_attempt_counts (sess a1)) with (to_dict Incorrect_attempt demo).
    rewrite to_dict_lookup, fmap_is_Some. apply lookup_lt_is_Some.
  - intros r Hr. vm_compute in Hr. by apply elem_of_nil in Hr.
Defined.


(** ** Invariants kept by every run *)

Section invariants.
Implicit Types (a : app) (s : session).

Lemma wf_initial_session (df : table) : wf_session (initial_session df).
Proof.
  unfold wf_session. simpl. split_and!; try done.
  - intros i. rewrite to_dict_lookup, fmap_is_Some. apply lookup_lt_is_Some.
  - intros i. rewrite to_dict_lookup, fmap_is_Some. apply lookup_lt_is_Some.
  - intros r Hr. by apply elem_of_nil in Hr.
Qed.

(** Well-formedness only looks at the table, the questions, their number,
    the stage, the mode and the keys of the two dicts. *)
Lemma wf_session_same s s' :
  wf_session s →
  data_df s' = data_df s →
  quiz_questions s' = quiz_questions s →
  total_questions_asked s' = total_questions_asked s →
  (quiz_stage s' = num_questions_selection →
   quiz_stage s = num_questions_selection ∧ practice_mode s' = practice_mode s) →
  (∀ i, is_Some (attempted_counts s' !! i) ↔ is_Some (attempted_counts s !! i)) →
  (∀ i, is_Some (incorrect_attempt_counts s' !! i) ↔
        is_Some (incorrect_attempt_counts s !! i)) →
  wf_session s'.
Proof.
  intros (Ha & Hi & Hq & Ht & Hm) Hdf Hqs Htot Hst Hatt Hinc.
  unfold wf_session. rewrite Hdf, Hqs, Htot. split_and!; try done.
  - intros i. by rewrite Hatt.
  - intros i. by rewrite Hinc.
  - intros Hs. destruct (Hst Hs) as [Hs' ->]. by apply Hm.
Qed.

Lemma is_Some_insert_present (m : gmap nat Z) (idx i : nat) (v : Z) :
  is_Some (m !! idx) → is_Some (<[idx := v]> m !! i) ↔ is_Some (m !! i).
Proof.
  intros Hidx. rewrite lookup_insert_is_Some.
  destruct (decide (idx = i)) as [->|]; naive_solver.
Qed.

Lemma reliable_tail (l : list api_fault) :
  HeaderReadFails ∉ l → HeaderReadFails ∉ tl l.
Proof. destruct l; simpl; set_solver. Qed.

Lemma hd_not_reliable (l : list api_fault) :
  hd Healthy l = HeaderReadFails → ¬ (HeaderReadFails ∉ l).
Proof. destruct l; simpl; [done|]. intros ->. set_solver. Qed.

(** Every outcome of a write call: it returns, or the header read raised. *)
Lemma update_gsheet_cell_outcome (row : nat) (col : string) (v : Z) a :
  ∃ c w' p',
    update_gsheet_cell row col v a = (c, {| sess := sess a; wld := w'; page := p' |}) ∧
    faults w' = tl (faults (wld a)) ∧
    (c = Normal tt ∨
     (c = Raise APIError ∧ hd Healthy (faults (wld a)) = HeaderReadFails)).
Proof.
  rewrite update_gsheet_cell_eq. cbv zeta.
  destruct (decide (_ = AuthFails)); [by eexists _, _, _; split_and!; eauto|].
  destruct (decide (_ = HeaderReadFails)); [by eexists _, _, _; split_and!; eauto|].
  destruct (headers_index _ _) as [i|]; [|by eexists _, _, _; split_and!; eauto].
  destruct (decide (_ = UpdateFails)); [by eexists _, _, _; split_and!; eauto|].
  eexists _, _, _; split_and!; [done| |by left].
  by destruct (worksheet_update_cell_keeps (row + 2) (i + 1) v (entered row col v (wld a)))
    as (_ & -> & _).
Qed.

Ltac step_write :=
  match goal with
  | |- context [update_gsheet_cell ?r ?c ?v ?st] =>
      let o := fresh "o" in
      let w := fresh "w" in
      let p := fresh "p" in
      let Hfl := fresh "Hfl" in
      let Hh := fresh "Hh" in
      destruct (update_gsheet_cell_outcome r c v st)
        as (o & w & p & -> & Hfl & [->|[-> Hh]]); simpl in Hfl
  end.

Lemma submit_answer_step a k x :
  wf_session (sess a) →
  quiz_questions (sess a) !! current_question_idx (sess a) = Some x →
  (current_question_idx (sess a) < total_questions_asked (sess a))%nat →
  step_ok a (submit_answer k a).
Proof.
  intros Hwf Hq Hlt. destruct x as [idx q].
  pose proof Hwf as (Ha & Hi & Hl & Ht & Hm).
  assert (idx < length (data_df (sess a)))%nat as Hidx
    by (apply (Hl (idx, q)); by eapply list_elem_of_lookup_2).
  destruct (proj2 (Ha idx) Hidx) as [att Hatt].
  destruct (proj2 (Hi idx) Hidx) as [inc Hinc].
  assert (∀ v i, is_Some (<[idx := v]> (attempted_counts (sess a)) !! i) ↔
                 is_Some (attempted_counts (sess a) !! i)) as Hka
    by (intros; apply is_Some_insert_present; eauto).
  assert (∀ v i, is_Some (<[idx := v]> (incorrect_attempt_counts (sess a)) !! i) ↔
                 is_Some (incorrect_attempt_counts (sess a) !! i)) as Hki
    by (intros; apply is_Some_insert_present; eauto).
  unfold submit_answer, increment, getitem. rewrite bind_eq. simpl. rewrite Hq.
  monad_unfold. simpl. rewrite Hatt. simpl. rewrite lookup_insert_eq. simpl.
  step_write.
  2:{ unfold step_ok, reliable. simpl. split_and!.
      - apply (wf_session_same (sess a)); simpl;
        [done|done|done|done|by intros ?|..]; intros; first [done|apply Hka|apply Hki].
      - intros e [= <-]. split; [done|]. by apply hd_not_reliable.
      - intros Hr. by apply hd_not_reliable in Hh.
      - intros Hr. by apply hd_not_reliable in Hh. }
  destruct (decide (key_text k = Py.lower (Correct_Answer q))) as [Heq|Hne].
  - simpl. rewrite lookup_insert_eq. simpl. step_write.
    + unfold step_ok, reliable, score_bounded. simpl. split_and!.
      * apply (wf_session_same (sess a)); simpl;
        [done|done|done|done|by intros ?|..]; intros; first [done|apply Hka|apply Hki].
      * done.
      * intros Hr. rewrite Hfl0, Hfl. by do 2 apply reliable_tail.
      * intros _ [[? ?] ?]. lia.
    + unfold step_ok, reliable. simpl. split_and!.
      * apply (wf_session_same (sess a)); simpl;
        [done|done|done|done|by intros ?|..]; intros; first [done|apply Hka|apply Hki].
      * intros e [= <-]. split; [done|]. intros Hr.
        apply reliable_tail in Hr. rewrite <- Hfl in Hr. by apply hd_not_reliable in Hh.
      * intros Hr. apply reliable_tail in Hr. rewrite <- Hfl in Hr.
        by apply hd_not_reliable in Hh.
      * intros Hr. apply reliable_tail in Hr. rewrite <- Hfl in Hr.
        by apply hd_not_reliable in Hh.
  - simpl. rewrite Hinc. simpl. rewrite lookup_insert_eq. simpl. step_write.
    + unfold step_ok, reliable, score_bounded. simpl. split_and!.
      * apply (wf_session_same (sess a)); simpl;
        [done|done|done|done|by intros ?|..]; intros; first [done|apply Hka|apply Hki].
      * done.
      * intros Hr. rewrite Hfl0, Hfl. by do 2 apply reliable_tail.
      * intros _ [[? ?] ?]. lia.
    + unfold step_ok, reliable. simpl. split_and!.
      * apply (wf_session_same (sess a)); simpl;
        [done|done|done|done|by intros ?|..]; intros; first [done|apply Hka|apply Hki].
      * intros e [= <-]. split; [done|]. intros Hr.
        apply reliable_tail in Hr. rewrite <- Hfl in Hr. by apply hd_not_reliable in Hh.
      * intros Hr. apply reliable_tail in Hr. rewrite <- Hfl in Hr.
        by apply hd_not_reliable in Hh.
      * intros Hr. apply reliable_tail in Hr. rewrite <- Hfl in Hr.
        by apply hd_not_reliable in Hh.
Qed.

Lemma start_quiz_outcome (pool : frame) (n : Z) a :
  start_quiz pool n a =
  if decide (n > 0 ∧ n ≤ Z.of_nat (length pool)) then
    (Rerun,
     {| sess :=
          set_quiz_stage quiz_in_progress
            (set_correct_answers_count 0
               (set_current_question_idx 0%nat
                  (set_total_questions_asked (length (drawn (wld a) pool n))
                     (set_quiz_questions (drawn (wld a) pool n)
                        (set_num_questions_to_ask n (sess a))))));
        wld := if decide (n < Z.of_nat (length pool))
               then set_rng (drop (Z.to_nat n) (rng (wld a))) (wld a)
               else wld a;
        page := page a |})
  else
    (Normal tt,
     {| sess := sess a; wld := wld a;
        page := page a ++
          [StError ("Please enter a number between 1 and " +:+ pretty (length pool) +:+ ".")] |}).
Proof.
  unfold start_quiz, drawn. destruct (decide (n > 0 ∧ _)); [|done].
  destruct (decide (n < _)); [done|]. by destruct a.
Qed.

Lemma pool_label (df : table) (chs : list Z) (m : mode) (att inc : gmap nat Z)
    (r : nat * question) :
  r ∈ get_questions_for_mode_streamlit df chs m att inc → (r.1 < length df)%nat.
Proof.
  intros Hr. apply (filtered_df_label df chs).
  eapply elem_of_sublist; [done|apply pool_sublist].
Qed.

(** A run that leaves the world alone and the session well formed, with
    the counters, the score and the cursor as they were. *)
Lemma step_ok_quiet a (c : ctl unit) s' p' :
  wf_session s' →
  (∀ e, c ≠ Raise e) →
  correct_answers_count s' = correct_answers_count (sess a) →
  current_question_idx s' = current_question_idx (sess a) →
  total_questions_asked s' = total_questions_asked (sess a) →
  step_ok a (c, {| sess := s'; wld := wld a; page := p' |}).
Proof.
  intros Hwf Hc Hs Hi Ht. unfold step_ok, score_bounded. simpl.
  rewrite Hs, Hi, Ht. split_and!; try done. intros e ->. by destruct (Hc e).
Qed.

Lemma script_step (ev : option event) a :
  wf_session (sess a) → step_ok a (script ev a).
Proof.
  intros Hwf. pose proof Hwf as (Ha & Hi & Hl & Ht & Hm).
  unfold script. rewrite bind_eq. simpl.
  destruct (quiz_stage (sess a)) eqn:Hstage.
  - (* chapter selection *)
    assert (step_ok a (Normal tt, a)) as Hid.
    { destruct a. by apply step_ok_quiet. }
    destruct ev as [[]|]; try exact Hid.
    unfold confirm_chapters. rewrite bind_eq. simpl.
    destruct (parse_chapter_input _ _) as [sel errs].
    rewrite bind_eq, show_all_run. simpl. destruct sel as [|x sel]; monad_unfold; simpl.
    + by apply step_ok_quiet.
    + apply step_ok_quiet; try done;
        apply (wf_session_same (sess a)); simpl; try done; by intros ?.
  - (* mode selection *)
    assert (∀ p', step_ok a (Normal tt, {| sess := sess a; wld := wld a; page := p' |}))
      as Hid by (intros; by apply step_ok_quiet).
    assert (step_ok a (Normal tt, a)) as Hid' by (destruct a; apply Hid).
    destruct (mode_options (sess a)) as [|m0 opts], ev as [[]|];
      unfold go_back, select_mode; monad_unfold; simpl;
      try apply Hid; try exact Hid'.
    + apply step_ok_quiet; try done;
        apply (wf_session_same (sess a)); simpl; try done; by intros ?.
    + case_decide; [|exact Hid']. simpl.
      apply step_ok_quiet; try done;
        unfold wf_session; simpl; split_and!; try done; eauto.
  - (* count selection *)
    destruct (Hm eq_refl) as [m Hmode].
    rewrite bind_eq, (quiz_pool_df_run a m Hmode).
    set (pool := get_questions_for_mode_streamlit _ _ _ _ _).
    assert (∀ p', step_ok a (Normal tt, {| sess := sess a; wld := wld a; page := p' |}))
      as Hid by (intros; by apply step_ok_quiet).
    assert (step_ok a (Normal tt, a)) as Hid' by (destruct a; apply Hid).
    destruct pool as [|r0 rest] eqn:Hpool, ev as [[]|];
      unfold go_back; monad_unfold; simpl;
      try apply Hid; try exact Hid'.
    + apply step_ok_quiet; try done;
        apply (wf_session_same (sess a)); simpl; try done; by intros ?.
    + change (S (length rest)) with (length (r0 :: rest)).
      rewrite <- Hpool. rewrite start_quiz_outcome.
      pose proof (st_number_input_bounds (Z.of_nat (length pool)) entry) as Hb.
      set (n := st_number_input _ _ _ _) in *.
      assert (1 ≤ Z.of_nat (length pool)) as Hone by (rewrite Hpool; simpl; lia).
      specialize (Hb Hone). rewrite decide_True by lia.
      destruct (drawn_spec (wld a) pool n) as (Hlen & Hsub & _); [lia|].
      unfold step_ok, reliable, score_bounded. simpl. split_and!; try done.
      * unfold wf_session. simpl. split_and!; try done.
        intros r Hr. apply (pool_label (data_df (sess a)) (selected_chapters (sess a)) m
                              (attempted_counts (sess a)) (incorrect_attempt_counts (sess a))).
        by eapply elem_of_submseteq.
      * by case_decide.
      * intros _ _. lia.
  - (* quiz in progress *)
    case_decide as Hlt.
    + destruct (lookup_lt_is_Some_2 (quiz_questions (sess a))
                  (current_question_idx (sess a))) as [x Hx]; [by rewrite <- Ht|].
      rewrite Hx.
      assert (step_ok a (Normal tt, a)) as Hid'
        by (destruct a; by apply step_ok_quiet).
      destruct ev as [[]|]; try exact Hid'.
      by eapply submit_answer_step.
    + monad_unfold. simpl. apply step_ok_quiet; try done;
        apply (wf_session_same (sess a)); simpl; try done; by intros ?.
  - (* finished *)
    rewrite bind_eq, show_score_run.
    assert (∀ p', step_ok a (Normal tt, {| sess := sess a; wld := wld a; page := p' |}))
      as Hid by (intros; by apply step_ok_quiet).
    destruct ev as [[]|]; try apply Hid.
    unfold start_new_quiz. rewrite bind_eq.
    match goal with |- context [load_data_from_gsheets ?st] =>
      destruct (load_data_from_gsheets_outcome st) as (c & w' & p' & -> & Hfl & [[df ->] | ->])
    end; simpl in Hfl.
    + unfold step_ok, reliable, score_bounded. simpl. split_and!; try done.
      * apply wf_initial_session.
      * by rewrite Hfl.
    + unfold step_ok, reliable. simpl. split_and!; try done. by rewrite Hfl.
Qed.

Lemma run_step (budget : nat) (ev : option event) a :
  wf_session (sess a) →
  wf_session (sess (run budget ev a)) ∧
  (reliable (wld a) →
     reliable (wld (run budget ev a)) ∧
     (score_bounded (sess a) → score_bounded (sess (run budget ev a)))).
Proof.
  revert ev a. induction budget as [|budget IH]; intros ev a Hwf;
    destruct (script_step ev (clear_page a) Hwf) as (Hw & He & Hr & Hs);
    [simpl|rewrite run_eq];
    destruct (script ev (clear_page a)) as [[[]|e| |] a1]; simpl in *;
    try (split; [done|]; intros Hrel; split; [by apply Hr|by apply Hs]).
  destruct (IH None a1 Hw) as [Hw' Hrel']. split; [done|].
  intros Hrel. destruct (Hrel' (Hr Hrel)) as [Hr' Hs']. split; [done|].
  intros Hb. by apply Hs', Hs.
Qed.

End invariants.

(** The initialization assigns [quiz_stage], loads the table and, when
    the load returns, assigns every other key: the session is then the
    initial one over the table, whatever it held before. *)
Lemma session_state_initialization_eq (a : app) :
  session_state_initialization a =
  match load_data_from_gsheets
          {| sess := set_quiz_stage chapter_selection (sess a); wld := wld a;
             page := page a |} with
  | (Normal df, a') =>
      (Normal tt, {| sess := initial_session df; wld := wld a'; page := page a' |})
  | (Raise e, a') => (Raise e, a')
  | (Rerun, a') => (Rerun, a')
  | (Stop, a') => (Stop, a')
  end.
Proof.
  unfold session_state_initialization. rewrite bind_eq.
  unfold modify_session at 1. cbv beta iota. rewrite bind_eq.
  match goal with |- context [load_data_from_gsheets ?st] =>
    destruct (load_data_from_gsheets_outcome st) as (c & w' & p' & -> & _ & [[df ->] | ->])
  end; reflexivity.
Qed.

Lemma boot_session (w : world) :
  (boot w).1 = Normal tt → ∃ df, sess (boot w).2 = initial_session df.
Proof.
  unfold boot. rewrite session_state_initialization_eq.
  match goal with |- context [load_data_from_gsheets ?st] =>
    destruct (load_data_from_gsheets_outcome st) as (c & w' & p' & -> & _ & [[df ->] | ->])
  end; simpl; [eauto|done].
Qed.

(** X5: every state a session can reach is well formed: the two counter
    dicts have an entry exactly for the rows of the loaded table, the
    questions of the quiz are rows of that table, [total_questions_asked] is
    their number, and the count is only asked for once a mode is chosen.
    This holds whatever happens around the session: time, edits of the
    spreadsheet, failures of the service. *)
Theorem reachable_wf (a : app) : reachable a → wf_session (sess a).
Proof.
  induction 1 as [w Hw|ev a _ IH|a w _ IH]; simpl.
  - destruct (boot_session w Hw) as [df ->]. apply wf_initial_session.
  - by apply run_step.
  - done.
Qed.

Lemma reachable_a3 : reachable a3.
Proof. unfold a3, a2, a1. do 3 apply reach_press. apply reach_boot. by vm_compute. Qed.

Lemma wf_a3 : wf_session (sess a3).
Proof.
  unfold a3, a2, a1, press. do 3 apply run_step.
  destruct (boot_session w0 eq_refl) as [df ->]. apply wf_initial_session.
Qed.

Lemma reachable_wf_witness : wf_session (sess a3_header_failure).
Proof.
  apply (reachable_wf a3_header_failure).
  apply (reach_world a3 (set_faults [HeaderReadFails] (wld a3))), reachable_a3.
Defined.



(** X7: as long as no header read fails, a button press keeps the score
    between 0 and the cursor, and the cursor at most the number of questions
    of the quiz. *)
Theorem press_keeps_score_bounded (a : app) (ev : event) :
  reachable a →
  reliable (wld a) →
  score_bounded (sess a) →
  score_bounded (sess (press ev a)) ∧ reliable (wld (press ev a)).
Proof.
  intros Hr%reachable_wf Hrel Hb.
  destruct (run_step 3 (Some ev) a Hr) as [_ H].
  destruct (H Hrel) as [? Hs]. split; [by apply Hs|done].
Qed.

Lemma press_keeps_score_bounded_witness :
  score_bounded (sess (press (SubmitAnswer key_d) a3)) ∧
  reliable (wld (press (SubmitAnswer key_d) a3)).
Proof.
  apply (press_keeps_score_bounded a3 (SubmitAnswer key_d)).
  - apply reachable_a3.
  - vm_compute. apply not_elem_of_nil.
  - vm_compute. repeat split; first [discriminate | lia].
Defined.

(** When a header read does fail after the score was raised, the cursor
    stays and the same question can be answered again: here the one-question
    quiz ends with a score of 2 out of 1. *)
Example score_exceeds_total_after_header_failure :
  let a := {| sess := sess a3; wld := set_faults [Healthy; HeaderReadFails] (wld a3);
              page := [] |} in
  let a' := press NextQuestion (press (SubmitAnswer key_d) (press (SubmitAnswer key_d) a)) in
  quiz_stage (sess a') = quiz_finished ∧
  correct_answers_count (sess a') = 2 ∧
  total_questions_asked (sess a') = 1%nat ∧
  attempted_counts (sess a') !! 3%nat = Some 2.
Proof. by vm_compute. Qed.

Lemma percentage_le (k correct : Z) (total : nat) :
  total ≠ 0%nat →
  ((percentage correct total <= inject_Z k)%Q ↔
   (100 * correct ≤ k * Z.of_nat total)%Z).
Proof.
  intros Ht. unfold percentage. rewrite decide_False by done.
  destruct total as [|t]; [done|].
  unfold Qle, Qdiv, Qmult, Qinv, inject_Z. simpl.
  rewrite Pos.mul_1_r, !Z.mul_1_r. lia.
Qed.

(** X8: with a bounded score the percentage of the banner lies between 0
    and 100. *)
Theorem bounded_score_percentage (s : session) :
  score_bounded s →
  (0 <= percentage (correct_answers_count s) (total_questions_asked s))%Q ∧
  (percentage (correct_answers_count s) (total_questions_asked s) <= 100)%Q.
Proof.
  intros [[H0 Hc] Hi].
  destruct (decide (total_questions_asked s = 0%nat)) as [Ht|Ht].
  - unfold percentage. rewrite decide_True by done. split; by vm_compute.
  - split.
    + apply (percentage_ge 0 _ _ Ht). lia.
    + apply (percentage_le 100 _ _ Ht). lia.
Qed.

Lemma bounded_score_percentage_witness :
  (0 <= percentage (correct_answers_count (sess a5)) (total_questions_asked (sess a5)))%Q ∧
  (percentage (correct_answers_count (sess a5)) (total_questions_asked (sess a5)) <= 100)%Q.
Proof.
  apply (bounded_score_percentage (sess a5)).
  vm_compute. repeat split; first [discriminate | lia].
Defined.

(** ** Count selection: the number input *)

(** X9: in the count selection with a non-empty pool of M rows, "Start
    Quiz" always starts a quiz. The number input hands the handler a count
    within 1..M, the entry itself when it lies within these bounds and
    [min(10, M)] otherwise, so the refusal of the handler is never shown;
    the session gets that count and as many questions, and the page of the
    quiz shows no message. *)
Theorem start_quiz_always_starts (a : app) (m : mode) (entry : Z) :
  quiz_stage (sess a) = num_questions_selection →
  practice_mode (sess a) = Some m →
  let pool := get_questions_for_mode_streamlit (data_df (sess a))
                (selected_chapters (sess a)) m
                (attempted_counts (sess a)) (incorrect_attempt_counts (sess a)) in
  pool ≠ [] →
  let max_questions_available := Z.of_nat (length pool) in
  let num_questions :=
    st_number_input 1 max_questions_available (Z.min 10 max_questions_available) entry in
  let a' := press (StartQuiz entry) a in
  1 ≤ num_questions ≤ max_questions_available ∧
  (1 ≤ entry ≤ max_questions_available → num_questions = entry) ∧
  (¬ (1 ≤ entry ≤ max_questions_available) →
     num_questions = Z.min 10 max_questions_available) ∧
  quiz_stage (sess a') = quiz_in_progress ∧
  num_questions_to_ask (sess a') = num_questions ∧
  Z.of_nat (total_questions_asked (sess a')) = num_questions ∧
  quiz_questions (sess a') = drawn (wld a) pool num_questions ∧
  page a' = [].
Proof.
  intros Hstage Hmode pool Hne. cbv zeta.
  assert (1 ≤ Z.of_nat (length pool)) as Hone by (destruct pool; simpl; [done|lia]).
  pose proof (st_number_input_bounds (Z.of_nat (length pool)) entry Hone) as Hn.
  assert (press (StartQuiz entry) a =
            press (StartQuiz (st_number_input 1 (Z.of_nat (length pool))
                                (Z.min 10 (Z.of_nat (length pool))) entry)) a) as Hsame.
  { unfold press. rewrite !run_eq.
    rewrite !(script_start_quiz (clear_page a) m _ Hstage Hmode) by done.
    simpl (sess (clear_page a)). fold pool.
    by rewrite (st_number_input_accepts _ _ _ (st_number_input _ _ _ _)). }
  set (n := st_number_input _ _ _ _) in *.
  destruct (drawn_spec (wld a) pool n Hn) as (Hlen & Hsub & Hall).
  destruct (start_quiz_run pool n (clear_page a) Hn) as (w' & Hrun & Hw).
  assert (∃ x, drawn (wld a) pool n !! 0%nat = Some x) as [x Hx].
  { apply lookup_lt_is_Some_2. lia. }
  assert (press (StartQuiz n) a =
            {| sess := set_quiz_stage quiz_in_progress
                 (set_correct_answers_count 0
                    (set_current_question_idx 0%nat
                       (set_total_questions_asked (length (drawn (wld a) pool n))
                          (set_quiz_questions (drawn (wld a) pool n)
                             (set_num_questions_to_ask n (sess a))))));
               wld := w'; page := [] |}) as Hpress.
  { unfold press. rewrite run_eq.
    rewrite (script_start_quiz (clear_page a) m n Hstage Hmode) by done.
    simpl (sess (clear_page a)). fold pool.
    rewrite st_number_input_accepts by done. rewrite Hrun, run_eq.
    erewrite script_in_progress_idle; [done|done|simpl; lia|exact Hx]. }
  rewrite Hsame, Hpress. simpl. split_and!; try done; try lia.
  - intros He. subst n. by apply st_number_input_accepts.
  - intros He. subst n. unfold st_number_input. by rewrite decide_False.
Qed.

Lemma start_quiz_always_starts_witness :
  let pool := get_questions_for_mode_streamlit (data_df (sess b2))
                (selected_chapters (sess b2)) normal
                (attempted_counts (sess b2)) (incorrect_attempt_counts (sess b2)) in
  let max_questions_available := Z.of_nat (length pool) in
  let num_questions :=
    st_number_input 1 max_questions_available (Z.min 10 max_questions_available) 5 in
  let a' := press (StartQuiz 5) b2 in
  1 ≤ num_questions ≤ max_questions_available ∧
  (1 ≤ 5 ≤ max_questions_available → num_questions = 5) ∧
  (¬ (1 ≤ 5 ≤ max_questions_available) →
     num_questions = Z.min 10 max_questions_available) ∧
  quiz_stage (sess a') = quiz_in_progress ∧
  num_questions_to_ask (sess a') = num_questions ∧
  Z.of_nat (total_questions_asked (sess a')) = num_questions ∧
  quiz_questions (sess a') = drawn (wld b2) pool num_questions ∧
  page a' = [].
Proof.
  apply (start_quiz_always_starts b2 normal 5); [reflexivity | reflexivity | by vm_compute].
Defined.

(** The entry 5 with a pool of four rows: the quiz starts with the four. *)
Example start_quiz_entry_above_pool :
  num_questions_to_ask (sess (press (StartQuiz 5) b2)) = 4 ∧
  index (quiz_questions (sess (press (StartQuiz 5) b2))) = [0; 1; 2; 3]%nat ∧
  page (press (StartQuiz 5) b2) = [].
Proof. by vm_compute. Qed.

(** X10: in the count selection with an empty pool no count starts a quiz:
    "Start Quiz" is not offered, the page shows the warning, and "Go back"
    returns to the mode selection with the rest of the session and the world
    unchanged. *)
Theorem empty_pool_only_goes_back (a : app) (m : mode) (ev : event) :
  quiz_stage (sess a) = num_questions_selection →
  practice_mode (sess a) = Some m →
  get_questions_for_mode_streamlit (data_df (sess a)) (selected_chapters (sess a)) m
    (attempted_counts (sess a)) (incorrect_attempt_counts (sess a)) = [] →
  let a' := press ev a in
  wld a' = wld a ∧
  (ev = GoBackToModeSelection → sess a' = set_quiz_stage mode_selection (sess a)) ∧
  (ev ≠ GoBackToModeSelection →
     sess a' = sess a ∧
     page a' = [StWarning "No questions available for the selected mode. Please choose another mode."]).
Proof.
  intros Hstage Hmode Hpool. cbv zeta.
  assert (script (Some ev) (clear_page a) =
          match ev with
          | GoBackToModeSelection =>
              (Rerun, {| sess := set_quiz_stage mode_selection (sess a);
                         wld := wld a; page := [] |})
          | _ =>
              (Normal tt,
               {| sess := sess a; wld := wld a;
                  page := [StWarning "No questions available for the selected mode. Please choose another mode."] |})
          end) as Hs.
  { unfold script. rewrite bind_eq. simpl. rewrite Hstage.
    rewrite bind_eq, (quiz_pool_df_run (clear_page a) m Hmode). simpl. rewrite Hpool.
    by destruct ev. }
  unfold press. rewrite run_eq, Hs. destruct ev; try (split_and!; done).
  rewrite run_eq.
  destruct (script_mode_selection_idle
              (clear_page {| sess := set_quiz_stage mode_selection (sess a);
                             wld := wld a; page := [] |})) as [p ->]; [done|].
  simpl. split_and!; done.
Qed.

Lemma empty_pool_only_goes_back_witness :
  let a := {| sess := set_quiz_stage num_questions_selection
                        (set_practice_mode (Some incorrect)
                           (set_selected_chapters [3] (initial_session demo)));
              wld := w0; page := [] |} in
  let a' := press (StartQuiz 1) a in
  wld a' = wld a ∧
  (StartQuiz 1 = GoBackToModeSelection → sess a' = set_quiz_stage mode_selection (sess a)) ∧
  (StartQuiz 1 ≠ GoBackToModeSelection →
     sess a' = sess a ∧
     page a' = [StWarning "No questions available for the selected mode. Please choose another mode."]).
Proof.
  apply (empty_pool_only_goes_back _ incorrect (StartQuiz 1)); reflexivity.
Defined.

(** ** The cursor *)



(** X12: once the cursor has reached the number of questions, any run of
    the in-progress stage moves to the finished stage, changes nothing else
    in the session or the world, and the page shows the banner. *)
Theorem cursor_at_end_finishes (a : app) (ev : event) :
  quiz_stage (sess a) = quiz_in_progress →
  ¬ (current_question_idx (sess a) < total_questions_asked (sess a))%nat →
  let a' := press ev a in
  sess a' = set_quiz_stage quiz_finished (sess a) ∧
  wld a' = wld a ∧
  page a' = [score_banner (sess a)].
Proof.
  intros Hstage Hlt. cbv zeta.
  assert (script (Some ev) (clear_page a) =
          (Rerun, {| sess := set_quiz_stage quiz_finished (sess a);
                     wld := wld a; page := [] |})) as Hs.
  { unfold script. rewrite bind_eq. simpl. by rewrite Hstage, decide_False. }
  unfold press. rewrite run_eq, Hs, run_eq.
  by rewrite script_finished.
Qed.

Lemma cursor_at_end_finishes_witness :
  let a' := press NextQuestion a4 in
  sess a' = set_quiz_stage quiz_finished (sess a4) ∧
  wld a' = wld a4 ∧
  page a' = [score_banner (sess a4)].
Proof.
  apply (cursor_at_end_finishes a4 NextQuestion); [reflexivity | vm_compute; lia].
Defined.

(** ** The loader and its cache *)

Lemma cached_Some {A} (ttl t_now : Z) (entry : option (Z * A)) (x : A) :
  cached ttl t_now entry = Some x ↔ ∃ t, entry = Some (t, x) ∧ t_now - t < ttl.
Proof.
  unfold cached. destruct entry as [[t x']|]; [|naive_solver].
  case_decide; naive_solver.
Qed.

Lemma load_success_cache (a a1 : app) (df : table) :
  load_data_from_gsheets a = (Normal df, a1) →
  ∃ t, cache_data (wld a1) = Some (t, df) ∧ now (wld a) - t < cache_ttl ∧
       sess a1 = sess a ∧ sheet (wld a1) = sheet (wld a).
Proof.
  unfold load_data_from_gsheets, conn_read, load_failed. monad_unfold. simpl.
  destruct (cached cache_ttl _ _) as [df0|] eqn:Hc; simpl.
  { intros [= <- <-]. apply cached_Some in Hc as (t & Hc & Ht). by exists t. }
  destruct (cached conn_ttl _ _) as [[cols df1]|] eqn:Hc1; simpl;
    [|destruct (read_ok (wld a)); simpl; [|done]];
    repeat (case_decide; simpl); try done;
    intros [= <- <-]; exists (now (wld a)); simpl;
    (split_and!; try done; unfold cache_ttl; lia).
Qed.

(** X13: a table returned by the loader is served again, unchanged and
    without touching the world, to every load made less than 600 seconds
    after the time stored with it, whatever the spreadsheet has become. *)
Theorem cached_table_served (a a1 : app) (df : table) :
  load_data_from_gsheets a = (Normal df, a1) →
  ∃ t, cache_data (wld a1) = Some (t, df) ∧ now (wld a) - t < cache_ttl ∧
       ∀ a2, cache_data (wld a2) = Some (t, df) →
             now (wld a2) - t < cache_ttl →
             load_data_from_gsheets a2 = (Normal df, a2).
Proof.
  intros (t & Hc & Ht & _)%load_success_cache. exists t. split_and!; [done..|].
  intros a2 Hc2 Ht2. apply load_cached. apply cached_Some. eauto.
Qed.

Lemma cached_table_served_witness :
  ∃ t, cache_data (wld (boot w0).2) = Some (t, demo) ∧ now w0 - t < cache_ttl ∧
       ∀ a2, cache_data (wld a2) = Some (t, demo) →
             now (wld a2) - t < cache_ttl →
             load_data_from_gsheets a2 = (Normal demo, a2).
Proof.
  apply (cached_table_served
           {| sess := initial_session []; wld := w0; page := [] |}
           {| sess := initial_session []; wld := wld (boot w0).2; page := [] |} demo).
  reflexivity.
Defined.

Lemma load_fails (a : app) :
  cached cache_ttl (now (wld a)) (cache_data (wld a)) = None →
  cached conn_ttl (now (wld a)) (conn_cache (wld a)) = None →
  read_ok (wld a) = false →
  load_data_from_gsheets a =
    (Stop, {| sess := sess a; wld := wld a; page := page a ++ [msg_load] |}).
Proof.
  intros H1 H2 H3. unfold load_data_from_gsheets, conn_read. monad_unfold. simpl.
  by rewrite H1, H2, H3.
Qed.

(** X14: when no cache entry is fresh and the spreadsheet cannot be read,
    the loader stops the run with its error message and stores nothing. The
    initialization has assigned [quiz_stage] by then and assigns no other
    key: the run stops with the session holding the stage and nothing else
    of it. "Start New Quiz" leaves the finished session as it is, with the
    error under the banner. *)
Theorem load_failure_halts (a : app) :
  cached cache_ttl (now (wld a)) (cache_data (wld a)) = None →
  cached conn_ttl (now (wld a)) (conn_cache (wld a)) = None →
  read_ok (wld a) = false →
  load_data_from_gsheets a =
    (Stop, {| sess := sess a; wld := wld a; page := page a ++ [msg_load] |}) ∧
  session_state_initialization a =
    (Stop, {| sess := set_quiz_stage chapter_selection (sess a); wld := wld a;
              page := page a ++ [msg_load] |}) ∧
  (quiz_stage (sess a) = quiz_finished →
     sess (press StartNewQuiz a) = sess a ∧
     wld (press StartNewQuiz a) = wld a ∧
     page (press StartNewQuiz a) = [score_banner (sess a); msg_load]).
Proof.
  intros H1 H2 H3. split_and!.
  - by apply load_fails.
  - rewrite session_state_initialization_eq. by rewrite load_fails.
  - intros Hstage. unfold press. rewrite run_eq, script_finished by done.
    unfold start_new_quiz. rewrite bind_eq, load_fails by done. done.
Qed.

Lemma load_failure_halts_witness :
  let a := {| sess := sess a5; wld := set_read_ok false (set_now 700 (wld a5));
              page := [] |} in
  load_data_from_gsheets a =
    (Stop, {| sess := sess a; wld := wld a; page := page a ++ [msg_load] |}) ∧
  session_state_initialization a =
    (Stop, {| sess := set_quiz_stage chapter_selection (sess a); wld := wld a;
              page := page a ++ [msg_load] |}) ∧
  (quiz_stage (sess a) = quiz_finished →
     sess (press StartNewQuiz a) = sess a ∧
     wld (press StartNewQuiz a) = wld a ∧
     page (press StartNewQuiz a) = [score_banner (sess a); msg_load]).
Proof. apply (load_failure_halts _); reflexivity. Defined.

Lemma astype_int_id (z : Z) : int64 z → astype_int z = z.
Proof. unfold int64, astype_int. intros H. rewrite Z.mod_small; lia. Qed.

Lemma astype_int_range (z : Z) : int64 (astype_int z).
Proof.
  unfold int64, astype_int.
  pose proof (Z.mod_pos_bound (z + 2 ^ 63) (2 ^ 64)). lia.
Qed.

(** X15: a restart made when both caches have expired and the spreadsheet
    can be read, with both counter columns in its header row, rebuilds the
    session from the spreadsheet as it is now, each row as the loader
    leaves it: both counter dicts hold, row by row, the counters of the
    spreadsheet brought into 64 bits, which are these counters themselves
    when they fit 64 bits. The spreadsheet is not changed and the table is
    cached with the time of the restart. *)
Theorem restart_after_expiry_refetches (a : app) :
  quiz_stage (sess a) = quiz_finished →
  cached cache_ttl (now (wld a)) (cache_data (wld a)) = None →
  cached conn_ttl (now (wld a)) (conn_cache (wld a)) = None →
  read_ok (wld a) = true →
  "Attempted" ∈ headers (wld a) →
  "Incorrect attempt" ∈ headers (wld a) →
  let a' := press StartNewQuiz a in
  let df := loaded (headers (wld a)) (sheet (wld a)) in
  sess a' = initial_session df ∧
  sheet (wld a') = sheet (wld a) ∧
  cache_data (wld a') = Some (now (wld a), df) ∧
  (∀ i, attempted_counts (sess a') !! i =
        (λ q, astype_int (Attempted q)) <$> sheet (wld a) !! i) ∧
  (∀ i, incorrect_attempt_counts (sess a') !! i =
        (λ q, astype_int (Incorrect_attempt q)) <$> sheet (wld a) !! i) ∧
  (∀ i q, sheet (wld a) !! i = Some q →
     (int64 (Attempted q) → attempted_counts (sess a') !! i = Some (Attempted q)) ∧
     (int64 (Incorrect_attempt q) →
        incorrect_attempt_counts (sess a') !! i = Some (Incorrect_attempt q))).
Proof.
  intros Hstage H1 H2 H3 Ha Hi. cbv zeta.
  set (df := loaded (headers (wld a)) (sheet (wld a))).
  assert (script (Some StartNewQuiz) (clear_page a) =
            (Rerun,
             {| sess := initial_session df;
                wld := set_cache_data (Some (now (wld a), df))
                         (set_conn_cache
                            (Some (now (wld a), (headers (wld a), sheet (wld a))))
                            (wld a));
                page := ([score_banner (sess a)] ++ load_messages (headers (wld a)))%list |}))
    as Hs.
  { rewrite script_finished by done.
    rewrite (start_new_quiz_run _ df
               {| sess := sess a;
                  wld := set_cache_data (Some (now (wld a), df))
                           (set_conn_cache
                              (Some (now (wld a), (headers (wld a), sheet (wld a))))
                              (wld a));
                  page := ([score_banner (sess a)] ++
                             load_messages (headers (wld a)))%list |});
      [reflexivity|].
    by rewrite load_fetches. }
  unfold press. rewrite run_eq, Hs, run_eq.
  rewrite script_chapter_selection_idle by done. simpl.
  assert (∀ i, to_dict Attempted df !! i =
               (λ q, astype_int (Attempted q)) <$> sheet (wld a) !! i) as Hatt.
  { intros i. unfold df. rewrite to_dict_lookup, loaded_lookup.
    by destruct (sheet (wld a) !! i). }
  assert (∀ i, to_dict Incorrect_attempt df !! i =
               (λ q, astype_int (Incorrect_attempt q)) <$> sheet (wld a) !! i) as Hinc.
  { intros i. unfold df. rewrite to_dict_lookup, loaded_lookup.
    by destruct (sheet (wld a) !! i). }
  split_and!; try done.
  intros i q Hq. rewrite Hatt, Hinc, Hq. simpl.
  split; intros Hr; by rewrite astype_int_id.
Qed.

Lemma restart_after_expiry_refetches_witness :
  let a := advance 700 a5 in
  let a' := press StartNewQuiz a in
  let df := loaded (headers (wld a)) (sheet (wld a)) in
  sess a' = initial_session df ∧
  sheet (wld a') = sheet (wld a) ∧
  cache_data (wld a') = Some (now (wld a), df) ∧
  (∀ i, attempted_counts (sess a') !! i =
        (λ q, astype_int (Attempted q)) <$> sheet (wld a) !! i) ∧
  (∀ i, incorrect_attempt_counts (sess a') !! i =
        (λ q, astype_int (Incorrect_attempt q)) <$> sheet (wld a) !! i) ∧
  (∀ i q, sheet (wld a) !! i = Some q →
     (int64 (Attempted q) → attempted_counts (sess a') !! i = Some (Attempted q)) ∧
     (int64 (Incorrect_attempt q) →
        incorrect_attempt_counts (sess a') !! i = Some (Incorrect_attempt q))).
Proof.
  apply (restart_after_expiry_refetches (advance 700 a5));
    [reflexivity | reflexivity | reflexivity | reflexivity
    | vm_compute; set_solver | vm_compute; set_solver].
Defined.

(** A counter cell beyond 64 bits wraps around when loaded, and a frame
    without question numbers gets the positions plus one, with the warning
    on the page of the first run. *)
Example wide_counter_wraps :
  Attempted <$> sheet w_wide = [2 ^ 63] ∧
  (boot w_wide).1 = Normal tt ∧
  attempted_counts (sess (boot w_wide).2) !! 0%nat = Some (- 2 ^ 63).
Proof. by vm_compute. Qed.

Example question_numbers_from_positions :
  (boot w_no_number).1 = Normal tt ∧
  Question_No <$> data_df (sess (boot w_no_number).2) = [1; 2; 3; 4] ∧
  page (boot w_no_number).2 = [msg_no_question_no].
Proof. by vm_compute. Qed.

(** ** Writes to the spreadsheet *)

Lemma headers_index_Some (col : string) (hs : list string) (i : nat) :
  headers_index col hs = Some i → hs !! i = Some col.
Proof.
  unfold headers_index. intros ([j h] & Hf & [= ->])%fmap_Some.
  apply list_find_Some in Hf as (Hj & -> & _). done.
Qed.

Lemma headers_index_elem_of (col : string) (hs : list string) :
  col ∈ hs ↔ is_Some (headers_index col hs).
Proof.
  unfold headers_index. rewrite fmap_is_Some. split.
  - intros H. by eapply list_find_elem_of.
  - intros [[j h] Hf]. apply list_find_Some in Hf as (Hj & -> & _).
    by eapply list_elem_of_lookup_2.
Qed.

Lemma worksheet_update_cell_sheet (row i : nat) (col : string) (v : Z) (w : world) :
  headers w !! i = Some col →
  worksheet_update_cell (row + 2) (i + 1) v w =
    set_sheet (alter (set_column col v) row (sheet w)) w.
Proof.
  intros Hi. unfold worksheet_update_cell.
  rewrite Nat.add_sub, Hi, decide_True, Nat.add_sub by lia. done.
Qed.

(** A call that finds the service healthy and the column in the header row. *)
Lemma update_gsheet_cell_healthy (row : nat) (col : string) (v : Z) (a : app) :
  hd Healthy (faults (wld a)) = Healthy →
  col ∈ headers (wld a) →
  update_gsheet_cell row col v a =
    (Normal tt,
     {| sess := sess a;
        wld := set_sheet (alter (set_column col v) row (sheet (wld a)))
                 (entered row col v (wld a));
        page := page a |}).
Proof.
  intros Hf [i Hi]%headers_index_elem_of.
  rewrite update_gsheet_cell_eq. cbv zeta. rewrite Hf, Hi. simpl.
  by rewrite (worksheet_update_cell_sheet row i col) by by apply headers_index_Some.
Qed.

Lemma cell_set_column_eq (col : string) (v : Z) (q : question) :
  cell col (set_column col v q) = written col v q.
Proof.
  unfold written, cell, set_column.
  repeat (case_decide; subst; simpl; try done).
Qed.

Lemma cell_set_column_ne (c col : string) (v : Z) (q : question) :
  c ≠ col → cell c (set_column col v q) = cell c q.
Proof.
  intros Hne. unfold cell, set_column.
  repeat (case_decide; subst; simpl; try done).
Qed.

(** X16: a write call that finds the service healthy and the column name in
    the header row returns without a message and changes exactly one cell:
    in the row of the spreadsheet at the given position the cell of that
    column holds the value (as its decimal text in a column of text), every
    other cell of the row is as before, and so is every other row. The
    0-based row position and the position of the name in the header row
    come back from the 1-based address of the cell. *)
Theorem healthy_write_lands (a : app) (row : nat) (col : string) (v : Z)
    (q : question) :
  hd Healthy (faults (wld a)) = Healthy →
  col ∈ headers (wld a) →
  sheet (wld a) !! row = Some q →
  let r := update_gsheet_cell row col v a in
  let q' := set_column col v q in
  r.1 = Normal tt ∧ page r.2 = page a ∧
  sheet (wld r.2) !! row = Some q' ∧
  cell col q' = written col v q ∧
  (∀ c, c ≠ col → cell c q' = cell c q) ∧
  (∀ j, j ≠ row → sheet (wld r.2) !! j = sheet (wld a) !! j) ∧
  length (sheet (wld r.2)) = length (sheet (wld a)) ∧
  (col = "Chapter" → Chapter q' = v) ∧
  (col = "Correct Answer" → Correct_Answer q' = pretty v) ∧
  (col = "Attempted" →
     Attempted q' = v ∧ Incorrect_attempt q' = Incorrect_attempt q) ∧
  (col = "Incorrect attempt" →
     Incorrect_attempt q' = v ∧ Attempted q' = Attempted q).
Proof.
  intros Hf Hcol Hq. cbv zeta. rewrite update_gsheet_cell_healthy by done. simpl.
  split; [done|]. split; [done|]. split; [by rewrite list_lookup_alter_eq, Hq|].
  split; [apply cell_set_column_eq|].
  split; [intros c Hc; by apply cell_set_column_ne|].
  split; [intros j Hj; by rewrite list_lookup_alter_ne|].
  split; [apply length_alter|]. split_and!; by intros ->.
Qed.

Lemma healthy_write_lands_witness :
  let r := update_gsheet_cell 3 "Chapter" 7 a3 in
  let q' := set_column "Chapter" 7 (mkq 1 "D" 0 0) in
  r.1 = Normal tt ∧ page r.2 = page a3 ∧
  sheet (wld r.2) !! 3%nat = Some q' ∧
  cell "Chapter" q' = written "Chapter" 7 (mkq 1 "D" 0 0) ∧
  (∀ c, c ≠ "Chapter" → cell c q' = cell c (mkq 1 "D" 0 0)) ∧
  (∀ j, j ≠ 3%nat → sheet (wld r.2) !! j = sheet (wld a3) !! j) ∧
  length (sheet (wld r.2)) = length (sheet (wld a3)) ∧
  (("Chapter" : string) = "Chapter" → Chapter q' = 7) ∧
  (("Chapter" : string) = "Correct Answer" → Correct_Answer q' = pretty 7) ∧
  (("Chapter" : string) = "Attempted" →
     Attempted q' = 7 ∧ Incorrect_attempt q' = Incorrect_attempt (mkq 1 "D" 0 0)) ∧
  (("Chapter" : string) = "Incorrect attempt" →
     Incorrect_attempt q' = 7 ∧ Attempted q' = Attempted (mkq 1 "D" 0 0)).
Proof.
  apply (healthy_write_lands a3 3 "Chapter" 7 (mkq 1 "D" 0 0));
    [reflexivity | vm_compute; set_solver | reflexivity].
Defined.

(** A write to the chapter column and one to a counter column, on the
    last row of [a3]. *)
Example writes_to_two_columns :
  Chapter <$> sheet (wld (update_gsheet_cell 3 "Chapter" 7 a3).2) = [3; 1; 2; 7] ∧
  Attempted <$> sheet (wld (update_gsheet_cell 3 "Attempted" 7 a3).2) = [0; 2; 1; 7] ∧
  Chapter <$> sheet (wld (update_gsheet_cell 3 "Attempted" 7 a3).2) = [3; 1; 2; 1].
Proof. by vm_compute. Qed.

(** X17: a write call that fails, at the authentication, at the header
    read or at the update, or whose column name is not in the header row,
    leaves the spreadsheet and the session as they were. *)
Theorem failed_write_keeps_sheet (a : app) (row : nat) (col : string) (v : Z) :
  hd Healthy (faults (wld a)) ≠ Healthy ∨ col ∉ headers (wld a) →
  let r := update_gsheet_cell row col v a in
  sheet (wld r.2) = sheet (wld a) ∧
  headers (wld r.2) = headers (wld a) ∧
  sess r.2 = sess a.
Proof.
  intros H. cbv zeta. rewrite update_gsheet_cell_eq. cbv zeta.
  destruct (decide (_ = AuthFails)); [done|].
  destruct (decide (_ = HeaderReadFails)); [done|].
  destruct (headers_index col (headers (wld a))) as [i|] eqn:Hi; [|done].
  destruct (decide (_ = UpdateFails)); [done|]. exfalso.
  destruct H as [H|H].
  - by destruct (hd Healthy (faults (wld a))).
  - apply H, headers_index_elem_of. by rewrite Hi.
Qed.

Lemma failed_write_keeps_sheet_witness :
  let r := update_gsheet_cell 3 "Score" 7 a3 in
  sheet (wld r.2) = sheet (wld a3) ∧
  headers (wld r.2) = headers (wld a3) ∧
  sess r.2 = sess a3.
Proof.
  apply (failed_write_keeps_sheet a3 3 "Score" 7). right.
  vm_compute. intros H.
  repeat (apply elem_of_cons in H as [H|H]; [discriminate H|]).
  by apply elem_of_nil in H.
Defined.

Lemma submit_answer_healthy (a : app) (k : option_key) (idx : nat) (q : question) :
  quiz_questions (sess a) !! current_question_idx (sess a) = Some (idx, q) →
  is_Some (attempted_counts (sess a) !! idx) →
  is_Some (incorrect_attempt_counts (sess a) !! idx) →
  hd Healthy (faults (wld a)) = Healthy →
  hd Healthy (tl (faults (wld a))) = Healthy →
  "Attempted" ∈ headers (wld a) →
  "Incorrect attempt" ∈ headers (wld a) →
  ∃ w' p',
    submit_answer k a =
      (Normal tt, {| sess := graded k idx q (sess a); wld := w'; page := p' |}) ∧
    sheet w' =
      alter (set_column "Incorrect attempt" (incorrect_written k idx q (sess a))) idx
        (alter (set_column "Attempted" (get0 (attempted_counts (sess a)) idx + 1)) idx
           (sheet (wld a))).
Proof.
  intros Hq [att Hatt] [inc Hinc] Hf1 Hf2 Hc1 Hc2.
  unfold submit_answer, graded, incorrect_written, is_correct, get0, increment,
    getitem in *.
  rewrite Hatt, Hinc. simpl.
  rewrite bind_eq. simpl. rewrite Hq.
  monad_unfold. simpl. rewrite Hatt. simpl. rewrite lookup_insert_eq. simpl.
  rewrite update_gsheet_cell_healthy by done.
  destruct (decide (key_text k = Py.lower (Correct_Answer q))) as [Heq|Hne].
  - simpl. rewrite lookup_insert_eq. simpl.
    rewrite update_gsheet_cell_healthy by done. simpl.
    eexists _, _. split; reflexivity.
  - simpl. rewrite Hinc. simpl. rewrite lookup_insert_eq. simpl.
    rewrite update_gsheet_cell_healthy by done. simpl.
    eexists _, _. split; reflexivity.
Qed.

(** X18: after a submission graded with a healthy service and both counter
    columns in the header row, the row of the question in the spreadsheet
    holds the two counters that the session holds for it, and no other row
    of the spreadsheet has changed. *)
Theorem graded_submission_mirrored (a : app) (k : option_key) (idx : nat)
    (q q0 : question) :
  quiz_stage (sess a) = quiz_in_progress →
  (current_question_idx (sess a) < total_questions_asked (sess a))%nat →
  quiz_questions (sess a) !! current_question_idx (sess a) = Some (idx, q) →
  is_Some (attempted_counts (sess a) !! idx) →
  is_Some (incorrect_attempt_counts (sess a) !! idx) →
  hd Healthy (faults (wld a)) = Healthy →
  hd Healthy (tl (faults (wld a))) = Healthy →
  "Attempted" ∈ headers (wld a) →
  "Incorrect attempt" ∈ headers (wld a) →
  sheet (wld a) !! idx = Some q0 →
  let a' := press (SubmitAnswer k) a in
  ∃ q', sheet (wld a') !! idx = Some q' ∧
        attempted_counts (sess a') !! idx = Some (Attempted q') ∧
        incorrect_attempt_counts (sess a') !! idx = Some (Incorrect_attempt q') ∧
        ∀ j, j ≠ idx → sheet (wld a') !! j = sheet (wld a) !! j.
Proof.
  intros Hstage Hlt Hq Hatt Hinc Hf1 Hf2 Hc1 Hc2 Hq0. cbv zeta.
  unfold press. rewrite run_eq, (script_submit _ k (idx, q)) by done.
  destruct (submit_answer_healthy (clear_page a) k idx q) as (w' & p' & -> & Hs);
    try done.
  simpl in *. rewrite Hs.
  eexists. split; [by rewrite !list_lookup_alter_eq, Hq0|].
  unfold graded. split_and!.
  - destruct (decide (is_correct k q)); simpl; by rewrite lookup_insert_eq.
  - unfold incorrect_written.
    destruct (decide (is_correct k q)); simpl; by rewrite lookup_insert_eq.
  - intros j Hj. by rewrite !list_lookup_alter_ne.
Qed.

Lemma graded_submission_mirrored_witness :
  let a' := press (SubmitAnswer key_d) a3 in
  ∃ q', sheet (wld a') !! 3%nat = Some q' ∧
        attempted_counts (sess a') !! 3%nat = Some (Attempted q') ∧
        incorrect_attempt_counts (sess a') !! 3%nat = Some (Incorrect_attempt q') ∧
        ∀ j, j ≠ 3%nat → sheet (wld a') !! j = sheet (wld a3) !! j.
Proof.
  apply (graded_submission_mirrored a3 key_d 3 (mkq 1 "D" 0 0) (mkq 1 "D" 0 0));
    [reflexivity | vm_compute; lia | reflexivity | eexists; reflexivity
    | eexists; reflexivity | reflexivity | reflexivity
    | vm_compute; set_solver | vm_compute; set_solver | reflexivity].
Defined.

(** ** From the chapters to the count *)

Lemma parse_nonempty_accepted (df : table) (s : string) (x : Z) (l : list Z)
    (ms : list ui_msg) :
  parse_chapter_input df s = (x :: l, ms) →
  ms = [] ∧ Forall (λ ch, ch ∈ all_available_chapters df) (x :: l).
Proof.
  intros Hp. destruct (decide (s = "all")) as [->|Hall].
  { unfold parse_chapter_input in Hp. simpl in Hp. injection Hp as <- <-.
    split; [done|]. by apply Forall_forall. }
  destruct (Py.contains "-" s) eqn:Hdash.
  - destruct (parse_range df s Hall Hdash)
      as [(a & b & st & en & _ & _ & _ & Hr)|[_ Hr]]; rewrite Hr in Hp; [|done].
    injection Hp as Hl <-. split; [done|]. rewrite <- Hl.
    apply Forall_forall. by intros ch [_ ?]%list_elem_of_filter.
  - assert (ms = []) as ->.
    { unfold parse_chapter_input in Hp. rewrite decide_False, Hdash in Hp by done.
      destruct (mapM _ _); [|done]. destruct (forallb _ _); [|done].
      by injection Hp as _ <-. }
    split; [done|]. by eapply parse_list_accepted.
Qed.

Lemma script_mode_selection_offered (a : app) :
  quiz_stage (sess a) = mode_selection →
  mode_options (sess a) ≠ [] →
  script None a = (Normal tt, a).
Proof.
  intros Hstage Hne. unfold script. rewrite bind_eq. simpl. rewrite Hstage.
  by destruct (mode_options (sess a)).
Qed.

Lemma script_count_selection_idle (a : app) (m : mode) :
  quiz_stage (sess a) = num_questions_selection →
  practice_mode (sess a) = Some m →
  get_questions_for_mode_streamlit (data_df (sess a)) (selected_chapters (sess a)) m
    (attempted_counts (sess a)) (incorrect_attempt_counts (sess a)) ≠ [] →
  script None a = (Normal tt, a).
Proof.
  intros Hstage Hmode Hne. unfold script. rewrite bind_eq. simpl. rewrite Hstage.
  rewrite bind_eq, (quiz_pool_df_run a m Hmode).
  by destruct (get_questions_for_mode_streamlit _ _ _ _ _).
Qed.

(** X19: a selection that "Confirm Chapters" accepts always has questions:
    every chapter in it occurs in the table, so in the session that follows
    at least one row is selected and the normal mode is offered; the warning
    that no mode is available cannot follow an accepted selection. *)
Theorem accepted_selection_has_questions (a : app) (chapter_input : string) :
  quiz_stage (sess a) = chapter_selection →
  (parse_chapter_input (data_df (sess a)) chapter_input).1 ≠ [] →
  let a' := press (ConfirmChapters chapter_input) a in
  filtered_df (data_df (sess a')) (selected_chapters (sess a')) ≠ [] ∧
  normal ∈ mode_options (sess a') ∧
  page a' = [].
Proof.
  intros Hstage Hne. cbv zeta.
  destruct (parse_chapter_input (data_df (sess a)) chapter_input) as [sel errs] eqn:Hp.
  destruct sel as [|x sel]; [done|]. clear Hne.
  destruct (parse_nonempty_accepted _ _ _ _ _ Hp) as [-> Hin].
  apply Forall_cons in Hin as [Hx _].
  apply elem_of_all_available in Hx as (q & Hq & Hch).
  apply list_elem_of_lookup in Hq as [i Hi].
  set (s' := set_quiz_stage mode_selection
               (set_selected_chapters (x :: sel) (sess a))).
  assert ((i, q) ∈ filtered_df (data_df s') (selected_chapters s')) as Hrow.
  { apply list_elem_of_filter. simpl. split; [rewrite Hch; left|].
    by apply elem_of_rows. }
  assert (normal ∈ mode_options s') as Hnormal.
  { unfold mode_options, get_question_counts_streamlit.
    destruct (filtered_df (data_df s') (selected_chapters s')) as [|r f] eqn:Hf;
      [by apply elem_of_nil in Hrow|].
    rewrite decide_True by (simpl; lia). set_solver. }
  assert (press (ConfirmChapters chapter_input) a =
            {| sess := s'; wld := wld a; page := [] |}) as ->.
  { assert (script (Some (ConfirmChapters chapter_input)) (clear_page a) =
              (Rerun, {| sess := s'; wld := wld a; page := [] |})) as Hs.
    { unfold script. rewrite bind_eq. simpl. rewrite Hstage.
      unfold confirm_chapters. rewrite bind_eq. simpl. rewrite Hp.
      by rewrite bind_eq, show_all_run. }
    unfold press. rewrite run_eq, Hs, run_eq.
    rewrite script_mode_selection_offered; [done|done|].
    simpl. intros Hnil. rewrite Hnil in Hnormal. by apply elem_of_nil in Hnormal. }
  simpl sess. simpl page. split_and!; try done.
  intros Hnil. rewrite Hnil in Hrow. by apply elem_of_nil in Hrow.
Qed.

Lemma accepted_selection_has_questions_witness :
  let a' := press (ConfirmChapters "1, 3") (boot w0).2 in
  filtered_df (data_df (sess a')) (selected_chapters (sess a')) ≠ [] ∧
  normal ∈ mode_options (sess a') ∧
  page a' = [].
Proof.
  apply (accepted_selection_has_questions (boot w0).2 "1, 3"); [reflexivity|].
  by vm_compute.
Defined.

(** X20: in a well-formed session, choosing a mode that is offered stores
    it, moves to the count selection and changes nothing else; the pool of
    that stage is then not empty, so the count is asked for and the warning
    for an empty pool is not shown. *)
Theorem select_offered_mode (a : app) (m : mode) :
  wf_session (sess a) →
  quiz_stage (sess a) = mode_selection →
  m ∈ mode_options (sess a) →
  let a' := press (SelectMode m) a in
  sess a' = set_quiz_stage num_questions_selection (set_practice_mode (Some m) (sess a)) ∧
  wld a' = wld a ∧
  page a' = [] ∧
  get_questions_for_mode_streamlit (data_df (sess a')) (selected_chapters (sess a')) m
    (attempted_counts (sess a')) (incorrect_attempt_counts (sess a')) ≠ [].
Proof.
  intros Hwf Hstage Hm. cbv zeta.
  pose proof (proj1 (mode_options_spec (sess a) m Hwf) Hm) as Hpool.
  set (s' := set_quiz_stage num_questions_selection
               (set_practice_mode (Some m) (sess a))).
  assert (press (SelectMode m) a = {| sess := s'; wld := wld a; page := [] |}) as ->.
  { assert (script (Some (SelectMode m)) (clear_page a) =
              (Rerun, {| sess := s'; wld := wld a; page := [] |})) as Hs.
    { unfold script. rewrite bind_eq. simpl. rewrite Hstage.
      destruct (mode_options (sess a)) as [|m0 opts] eqn:Ho;
        [by apply elem_of_nil in Hm|].
      by rewrite decide_True. }
    unfold press. rewrite run_eq, Hs, run_eq.
    by rewrite (script_count_selection_idle _ m). }
  done.
Qed.

Lemma select_offered_mode_witness :
  let a' := press (SelectMode new) a1 in
  sess a' = set_quiz_stage num_questions_selection (set_practice_mode (Some new) (sess a1)) ∧
  wld a' = wld a1 ∧
  page a' = [] ∧
  get_questions_for_mode_streamlit (data_df (sess a')) (selected_chapters (sess a')) new
    (attempted_counts (sess a')) (incorrect_attempt_counts (sess a')) ≠ [].
Proof.
  apply (select_offered_mode a1 new); [|reflexivity|vm_compute; set_solver].
  split_and!; try done.
  - intros i. change (attempted_counts (sess a1)) with (to_dict Attempted demo).
    rewrite to_dict_lookup, fmap_is_Some. apply lookup_lt_is_Some.
  - intros i. change (incorrect_attempt_counts (sess a1)) with (to_dict Incorrect_attempt demo).
    rewrite to_dict_lookup, fmap_is_Some. apply lookup_lt_is_Some.
  - intros r Hr. vm_compute in Hr. by apply elem_of_nil in Hr.
Defined.


(** ** What only grading and restarting change *)

Lemma script_quiet (ev : option event) (a : app) :
  quiet ev → same_store a (script ev a).2.
Proof.
  intros Hq. unfold script. rewrite bind_eq. simpl.
  destruct (quiz_stage (sess a)) eqn:Hstage.
  - destruct ev as [[]|]; try done.
    unfold confirm_chapters. rewrite bind_eq. simpl.
    destruct (parse_chapter_input _ _) as [sel errs].
    rewrite bind_eq, show_all_run. by destruct sel.
  - destruct (mode_options (sess a)), ev as [[]|]; try done.
    by case_decide.
  - rewrite bind_eq. unfold quiz_pool_df. rewrite bind_eq. simpl.
    destruct (practice_mode (sess a)); [|done]. simpl.
    destruct (get_questions_for_mode_streamlit _ _ _ _ _) eqn:Hp, ev as [[]|]; try done.
    rewrite start_quiz_outcome. case_decide; [|done].
    unfold same_store. simpl. split_and!; try done; by case_decide.
  - case_decide; [|done].
    destruct (quiz_questions (sess a) !! _), ev as [[]|]; done.
  - rewrite bind_eq, show_score_run. destruct ev as [[]|]; done.
Qed.

Lemma run_quiet (budget : nat) (ev : option event) (a : app) :
  quiet ev → same_store a (run budget ev a).
Proof.
  revert ev a. induction budget as [|budget IH]; intros ev a Hq;
    pose proof (script_quiet ev (clear_page a) Hq) as Hs;
    [simpl|rewrite run_eq];
    destruct (script ev (clear_page a)) as [[[]|e| |] a1]; simpl in *; try done.
  destruct (IH None a1 I) as (H1 & H2 & H3 & H4 & H5).
  destruct Hs as (H1' & H2' & H3' & H4' & H5'). simpl in *.
  unfold same_store. split_and!; congruence.
Qed.

(** X21: the two counter dicts, the loaded table, the spreadsheet and the
    list of write calls are changed by no button other than "Submit Answer"
    and "Start New Quiz". *)
Theorem only_submit_and_restart_touch_store (a : app) (ev : event) :
  (∀ k, ev ≠ SubmitAnswer k) →
  ev ≠ StartNewQuiz →
  same_store a (press ev a).
Proof.
  intros Hs Hr. apply run_quiet. destruct ev; try done. by destruct (Hs user_choice_key).
Qed.

Lemma only_submit_and_restart_touch_store_witness :
  same_store b2 (press (StartQuiz 2) b2).
Proof. by apply (only_submit_and_restart_touch_store b2 (StartQuiz 2)). Defined.


(** ** A whole quiz *)

Lemma press_submit_wf (a : app) (k : option_key) (idx : nat) (q : question) :
  wf_session (sess a) →
  reliable (wld a) →
  quiz_stage (sess a) = quiz_in_progress →
  quiz_questions (sess a) !! current_question_idx (sess a) = Some (idx, q) →
  sess (press (SubmitAnswer k) a) = graded k idx q (sess a) ∧
  wf_session (sess (press (SubmitAnswer k) a)) ∧
  reliable (wld (press (SubmitAnswer k) a)) ∧
  is_Some (attempted_counts (sess a) !! idx) ∧
  is_Some (incorrect_attempt_counts (sess a) !! idx).
Proof.
  intros Hwf Hrel Hstage Hq. pose proof Hwf as (Ha & Hi & Hl & Ht & _).
  assert (idx < length (data_df (sess a)))%nat as Hidx
    by (apply (Hl (idx, q)); by eapply list_elem_of_lookup_2).
  assert (current_question_idx (sess a) < total_questions_asked (sess a))%nat as Hlt
    by (rewrite Ht; by eapply lookup_lt_Some).
  destruct (press_submit a k idx q) as [Hs _]; try done.
  - by apply Ha.
  - intros _. by apply Hi.
  - intros Hin. apply Hrel. eapply elem_of_sublist; [done|apply sublist_take].
  - destruct (run_step 3 (Some (SubmitAnswer k)) a Hwf) as [Hwf' Hr'].
    split_and!; try done; [by apply Hr'|by apply Ha|by apply Hi].
Qed.

Lemma graded_fields (k : option_key) (l : nat) (q : question) (s : session) :
  let s1 := graded k l q s in
  current_question_idx s1 = S (current_question_idx s) ∧
  quiz_questions s1 = quiz_questions s ∧
  total_questions_asked s1 = total_questions_asked s ∧
  quiz_stage s1 = quiz_stage s ∧
  correct_answers_count s1 =
    correct_answers_count s + (if decide (is_correct k q) then 1 else 0) ∧
  attempted_counts s1 = <[l := get0 (attempted_counts s) l + 1]> (attempted_counts s) ∧
  incorrect_attempt_counts s1 =
    <[l := incorrect_written k l q s]> (incorrect_attempt_counts s).
Proof.
  cbv zeta. unfold graded, incorrect_written.
  destruct (decide (is_correct k q)); simpl; split_and!; try done; lia.
Qed.

(** X22: a quiz answered to its end with no header read failing: when the
    questions still to be answered have pairwise distinct labels, submitting
    one answer per question brings the cursor to the end, raises the
    attempted counter of each of these questions by exactly one, sets its
    incorrect counter to 0 if its answer was right and raises it by one if
    not, leaves the counters of every other row alone, and adds to the score
    the number of right answers. *)
Theorem whole_quiz_counts (ks : list option_key) (a : app) :
  wf_session (sess a) →
  reliable (wld a) →
  quiz_stage (sess a) = quiz_in_progress →
  (current_question_idx (sess a) ≤ total_questions_asked (sess a))%nat →
  NoDup (index (remaining (sess a))) →
  length ks = length (remaining (sess a)) →
  let s := sess a in
  let s' := sess (answers ks a) in
  let graded_pairs := zip ks (remaining s) in
  current_question_idx s' = total_questions_asked s ∧
  total_questions_asked s' = total_questions_asked s ∧
  quiz_stage s' = quiz_in_progress ∧
  correct_answers_count s' =
    correct_answers_count s +
    Z.of_nat (length (filter (λ p : option_key * (nat * question),
                                is_correct p.1 (p.2).2) graded_pairs)) ∧
  (∀ k l q, (k, (l, q)) ∈ graded_pairs →
     attempted_counts s' !! l = Some (get0 (attempted_counts s) l + 1) ∧
     incorrect_attempt_counts s' !! l =
       Some (if decide (is_correct k q) then 0
             else get0 (incorrect_attempt_counts s) l + 1)) ∧
  (∀ i, i ∉ index (remaining s) →
     attempted_counts s' !! i = attempted_counts s !! i ∧
     incorrect_attempt_counts s' !! i = incorrect_attempt_counts s !! i).
Proof.
  revert a. induction ks as [|k ks IH]; intros a Hwf Hrel Hstage Hle Hnd Hlen; cbv zeta.
  - symmetry in Hlen. apply nil_length_inv in Hlen.
    pose proof Hwf as (_ & _ & _ & Ht & _).
    assert (current_question_idx (sess a) = total_questions_asked (sess a)) as Hend.
    { unfold remaining in Hlen. apply (f_equal length) in Hlen.
      rewrite length_drop in Hlen. simpl in Hlen. lia. }
    simpl. rewrite Hlen. simpl. split_and!; try done; try lia.
    intros k l q Hin. by apply elem_of_nil in Hin.
  - destruct (remaining (sess a)) as [|[l q] rest] eqn:Hrem; [done|].
    assert (quiz_questions (sess a) !! current_question_idx (sess a) = Some (l, q)) as Hq.
    { rewrite <- (Nat.add_0_r (current_question_idx (sess a))), <- lookup_drop.
      unfold remaining in Hrem. by rewrite Hrem. }
    assert (rest = drop (S (current_question_idx (sess a))) (quiz_questions (sess a)))
      as Hrest.
    { unfold remaining in Hrem. rewrite (drop_S _ _ _ Hq) in Hrem. congruence. }
    destruct (press_submit_wf a k l q) as (Hs & Hwf1 & Hrel1 & [va Hva] & [vi Hvi]);
      try done.
    destruct (graded_fields k l q (sess a)) as (Gi & Gq & Gt & Gs & Gc & Ga & Gn).
    rewrite <- Hs in Gi, Gq, Gt, Gs, Gc, Ga, Gn.
    set (a1 := press (SubmitAnswer k) a) in *.
    assert (remaining (sess a1) = rest) as Hrem1.
    { unfold remaining. by rewrite Gi, Gq. }
    unfold index in Hnd. rewrite fmap_cons in Hnd. simpl in Hnd.
    apply NoDup_cons in Hnd as [Hl Hnd].
    pose proof Hwf as (_ & _ & _ & Ht & _).
    assert (current_question_idx (sess a) < total_questions_asked (sess a))%nat as Hlt
      by (rewrite Ht; by eapply lookup_lt_Some).
    destruct (IH a1) as (Ii & It & Is & Ic & Ip & Io); try done.
    { congruence. }
    { rewrite Gi, Gt. lia. }
    { by rewrite Hrem1. }
    { rewrite Hrem1. simpl in Hlen. lia. }
    change (answers (k :: ks) a) with (answers ks a1).
    rewrite Hrem1 in Ic, Ip, Io.
    assert (get0 (attempted_counts (sess a)) l = va) as Hga
      by (unfold get0; by rewrite Hva).
    assert (get0 (incorrect_attempt_counts (sess a)) l = vi) as Hgi
      by (unfold get0; by rewrite Hvi).
    split_and!.
    + by rewrite Ii, Gt.
    + by rewrite It, Gt.
    + done.
    + rewrite Ic, Gc. simpl. rewrite filter_cons. simpl.
      destruct (decide (is_correct k q)); simpl; lia.
    + intros k' l' q' Hin. simpl in Hin. apply elem_of_cons in Hin as [[= -> -> ->]|Hin].
      * destruct (Io l Hl) as [-> ->]. rewrite Ga, Gn, !lookup_insert_eq.
        unfold incorrect_written. split; [done|]. by case_decide.
      * assert (l' ∈ index rest) as Hl'.
        { apply elem_of_zip_r in Hin. unfold index.
          apply list_elem_of_fmap. by exists (l', q'). }
        assert (l ≠ l') as Hne by (intros ->; done).
        destruct (Ip k' l' q' Hin) as [-> ->]. unfold get0.
        by rewrite Ga, Gn, !lookup_insert_ne.
    + intros i Hi. unfold index in Hi. rewrite fmap_cons in Hi. simpl in Hi.
      apply not_elem_of_cons in Hi as [Hil Hi].
      destruct (Io i Hi) as [-> ->]. by rewrite Ga, Gn, !lookup_insert_ne.
Qed.

Lemma whole_quiz_counts_witness :
  let s := sess a3 in
  let s' := sess (answers [key_a] a3) in
  let graded_pairs := zip [key_a] (remaining s) in
  current_question_idx s' = total_questions_asked s ∧
  total_questions_asked s' = total_questions_asked s ∧
  quiz_stage s' = quiz_in_progress ∧
  correct_answers_count s' =
    correct_answers_count s +
    Z.of_nat (length (filter (λ p : option_key * (nat * question),
                                is_correct p.1 (p.2).2) graded_pairs)) ∧
  (∀ k l q, (k, (l, q)) ∈ graded_pairs →
     attempted_counts s' !! l = Some (get0 (attempted_counts s) l + 1) ∧
     incorrect_attempt_counts s' !! l =
       Some (if decide (is_correct k q) then 0
             else get0 (incorrect_attempt_counts s) l + 1)) ∧
  (∀ i, i ∉ index (remaining s) →
     attempted_counts s' !! i = attempted_counts s !! i ∧
     incorrect_attempt_counts s' !! i = incorrect_attempt_counts s !! i).
Proof.
  apply (whole_quiz_counts [key_a] a3).
  - apply wf_a3.
  - vm_compute. apply not_elem_of_nil.
  - reflexivity.
  - vm_compute. lia.
  - vm_compute. apply NoDup_singleton.
  - reflexivity.
Defined.
